(** * ELMLayer: a shallow embedding of [Layers/ELMLayer.py]

    The layer is a Python object whose methods mutate [self] and may raise.
    Methods are embedded in a state-and-exception monad over the record of
    the layer's attributes; an exception leaves the attributes as they were
    at the point where it was raised, as in Python.

    Tensors are two-dimensional arrays of scalars with an explicit shape.
    The scalar type and the TensorFlow operations that are not plain index
    arithmetic (pseudoinverse, norm, softmax, random initializers) form an
    interface, as do the modules of the repository that [ELMLayer.py]
    imports ([Resources.*], [Optimizers.*]).  An exact instance over the
    rationals is given to run the layer on concrete data. *)

From Stdlib Require Import QArith Qcanon.
From stdpp Require Import gmap strings list fin_maps.

Set Default Proof Using "Type".
#[local] Set Warnings "-register-all".

(** ** Exceptions and results *)

Inductive exn :=
| ValueError            (* tf.convert_to_tensor(None) *)
| TypeError
| IndexError
| AttributeError
| NameError
| SyntaxError
| InvalidArgumentError  (* incompatible shapes *)
| Exception (msg : string).

Inductive result (A : Type) :=
| Ok (a : A)
| Raise (e : exn).
Arguments Ok {A} a.
Arguments Raise {A} e.

Definition result_bind {A B} (r : result A) (k : A -> result B) : result B :=
  match r with
  | Ok a => k a
  | Raise e => Raise e
  end.

Notation "'let*' x := c 'in' k" := (result_bind c (fun x => k))
  (at level 10, x name, c at level 100, k at level 200).

Definition raises {A} (r : result A) : Prop :=
  match r with
  | Ok _ => False
  | Raise _ => True
  end.

Definition returned {A} (r : result A) : option A :=
  match r with
  | Ok a => Some a
  | Raise _ => None
  end.

(** ** Scalars *)

(** The arithmetic of the tensor element type ([tf.float32] in the source). *)
Class Scalar (T : Type) := {
  s_zero : T;
  s_one : T;
  s_add : T -> T -> T;
  s_mul : T -> T -> T;
  s_div : T -> T -> T;
  s_opp : T -> T
}.

(** Adding the float [0.0] leaves a number numerically unchanged. *)
Class ScalarLaws (T : Type) `{Scalar T} := {
  s_add_zero_r : forall v : T, s_add v s_zero = v
}.

(** ** Tensors *)

Section Tensors.
Context {T : Type} `{Scalar T}.

(** A rank-2 tensor: its [shape] and its entries by rows. *)
Record tensor := Tensor {
  shape : nat * nat;
  rows : list (list T)
}.

(** A rank-1 tensor of shape [(length v,)]. *)
Definition vector := list T.

Definition get (t : tensor) (i j : nat) : T :=
  nth j (nth i (rows t) []) s_zero.

Definition tabulate (n m : nat) (f : nat -> nat -> T) : tensor :=
  Tensor (n, m) (map (fun i => map (fun j => f i j) (seq 0 m)) (seq 0 n)).

(** The entries are exactly those the shape announces. *)
Definition wf_tensor (t : tensor) : Prop :=
  tabulate (fst (shape t)) (snd (shape t)) (get t) = t.

Definition s_sum (l : list T) : T := fold_left s_add l s_zero.

Definition transpose (t : tensor) : tensor :=
  tabulate (snd (shape t)) (fst (shape t)) (fun i j => get t j i).

(** [tf.cast(x, dtype=tf.float32)]: the tensors of the model already hold
    [float32] scalars, on which the cast is the identity. *)
Definition tf_cast (x : tensor) : tensor := x.

(** [tf.matmul(a, b, transpose_b=...)].  The second argument is a Python
    value that may be [None], which TensorFlow refuses to convert. *)
Definition tf_matmul (a : tensor) (b : option tensor) (transpose_b : bool)
  : result tensor :=
  match b with
  | None => Raise ValueError
  | Some b =>
      let b := if transpose_b then transpose b else b in
      if decide (snd (shape a) = fst (shape b)) then
        Ok (tabulate (fst (shape a)) (snd (shape b))
              (fun i j =>
                 s_sum (map (fun k => s_mul (get a i k) (get b k j))
                          (seq 0 (snd (shape a))))))
      else Raise InvalidArgumentError
  end.

(** The size NumPy broadcasting gives to a dimension from the sizes [m] and
    [k] of the operands, which are equal or one of which is 1: the size
    that is not 1 (so 0 against 1 gives 0). *)
Definition broadcast_dim (m k : nat) : nat :=
  if decide (m = 1) then k else m.

(** [h + b] for a matrix [h] and a rank-1 [b], with NumPy broadcasting of
    the trailing dimension. [b] may be [None]. *)
Definition tf_add (h : tensor) (b : option vector) : result tensor :=
  match b with
  | None => Raise TypeError
  | Some b =>
      let '(n, m) := shape h in
      let k := length b in
      if decide (m = k \/ k = 1 \/ m = 1) then
        Ok (tabulate n (broadcast_dim m k)
              (fun i j =>
                 s_add (get h i (if decide (m = 1) then 0 else j))
                       (nth (if decide (k = 1) then 0 else j) b s_zero)))
      else Raise InvalidArgumentError
  end.

(** Elementwise application of an activation function. *)
Definition tmap (f : T -> T) (t : tensor) : tensor :=
  tabulate (fst (shape t)) (snd (shape t)) (fun i j => f (get t i j)).

(** [tf.linalg.diag_part(h)] *)
Definition tf_linalg_diag_part (h : tensor) : vector :=
  map (fun i => get h i i)
    (seq 0 (Nat.min (fst (shape h)) (snd (shape h)))).

(** [d + c] for a rank-1 [d] and a Python float [c]. *)
Definition tf_add_scalar (d : vector) (c : T) : vector :=
  map (fun v => s_add v c) d.

(** [tf.linalg.set_diag(h, d)] *)
Definition tf_linalg_set_diag (h : tensor) (d : vector) : result tensor :=
  if decide (length d = Nat.min (fst (shape h)) (snd (shape h))) then
    Ok (tabulate (fst (shape h)) (snd (shape h))
          (fun i j => if decide (i = j) then nth i d s_zero else get h i j))
  else Raise InvalidArgumentError.

(** [v / tf.norm(v)] given the norm. *)
Definition tf_div_scalar (v : vector) (c : T) : vector :=
  map (fun e => s_div e c) v.
End Tensors.

Arguments tensor T : clear implicits.
Arguments vector T : clear implicits.

(** ** Python values *)

(** The values that occur in keyword arguments and in serialized attribute
    dictionaries. Python's [None] is the [None] of [option pyval]. *)
Inductive pyval (T : Type) :=
| PInt (z : Z)
| PFloat (c : T)
| PBool (b : bool)
| PStr (s : string)
| PTensor (t : tensor T)
| PVector (v : vector T)
| PDict (d : gmap string (pyval T)).
Arguments PInt {T} z.
Arguments PFloat {T} c.
Arguments PBool {T} b.
Arguments PStr {T} s.
Arguments PTensor {T} t.
Arguments PVector {T} v.
Arguments PDict {T} d.

(** ** Collaborators *)

(** [tensorflow]: the operations that are not index arithmetic. The ambient
    random generator of [tf.random_uniform_initializer] is passed
    explicitly. *)
Class TensorFlow (T : Type) := {
  rng : Type;
  tf_random_uniform_initializer2 :
    T -> T -> nat -> nat -> rng -> tensor T * rng;
  tf_random_uniform_initializer1 :
    T -> T -> nat -> rng -> vector T * rng;
  tf_linalg_pinv : tensor T -> tensor T;
  tf_norm : vector T -> T;
  tf_keras_activations_softmax : tensor T -> tensor T
}.

(** What the layer's shape bookkeeping relies on. *)
Class TensorFlowLaws (T : Type) `{TensorFlow T} := {
  random_uniform2_shape : forall lo hi n m g,
    shape (fst (tf_random_uniform_initializer2 lo hi n m g)) = (n, m);
  random_uniform1_length : forall lo hi n g,
    length (fst (tf_random_uniform_initializer1 lo hi n g)) = n;
  pinv_shape : forall h : tensor T,
    shape (tf_linalg_pinv h) = (snd (shape h), fst (shape h))
}.

(** [Optimizers.ELMOptimizer]: [optimize(beta, H, y)] returns the refined
    output weights and the error history. *)
Record ELMOptimizer (T : Type) := {
  optimize : tensor T -> tensor T -> tensor T -> result (tensor T * list T)
}.
Arguments optimize {T} _ _ _ _.

(** Modelled from the spec: [Resources.ReceptiveFieldGenerator] and
    [Resources.ReceptiveFieldGaussianGenerator] are not among the sources.
    [generate_receptive_fields(W)] "mutates the layer's projection matrix in
    place"; the function gives the contents of [W] after the call. *)
Record ReceptiveFieldGenerator (T : Type) := {
  generate_receptive_fields : tensor T -> result (tensor T);
  rf_to_dict : gmap string (option (pyval T))
}.
Arguments generate_receptive_fields {T} _ _.
Arguments rf_to_dict {T} _.

(** The four ways [__init__] calls [ActivationFunction(...)]. *)
Inductive act_ctor (T : Type) :=
| ActPositional (v : T)
| ActParam2 (act_param act_param2 : pyval T)
| ActParam (act_param : pyval T)
| ActKnots (knots : pyval T).
Arguments ActPositional {T} v.
Arguments ActParam2 {T} _ _.
Arguments ActParam {T} _.
Arguments ActKnots {T} _.

(** The modules of the repository imported by [ELMLayer.py] whose sources
    are not available: [Resources.ActivationFunction],
    [Resources.gram_schmidt], [Resources.generate_contrainted_weights] and
    the [load] class methods of the receptive field generators reached
    through [eval].

    [ActivationFunction ctor s] stands for constructing
    [act = ActivationFunction(...)] and evaluating [eval("act." + s)]: the
    activation (a scalar function applied elementwise) when [s] names one,
    and otherwise whatever [eval] raises ([AttributeError] for an
    identifier that is not an attribute, [SyntaxError] for a string that is
    not an expression) or evaluates to. *)
Class Resources (T : Type) := {
  ActivationFunction : act_ctor T -> string -> result (T -> T);
  gram_schmidt : tensor T -> result (tensor T);
  generate_contrainted_weights :
    tensor T -> tensor T -> pyval T -> result (tensor T);
  rf_load : string -> gmap string (pyval T) -> result (ReceptiveFieldGenerator T)
}.

(** [gram_schmidt] returns the "orthonormalized form" of its argument: a
    matrix of the same shape. *)
Class ResourcesLaws (T : Type) `{Resources T} := {
  gram_schmidt_shape : forall a a' : tensor T,
    gram_schmidt a = Ok a' -> shape a' = shape a
}.

(** ** The layer *)

Section Layer.
Context {T : Type} `{Scalar T} `{TensorFlow T} `{Resources T}.

(** The attributes of an [ELMLayer] instance, in the order [__init__]
    assigns them. *)
Record ELMLayer := {
  error_history : option (list T);
  feature_map : option (tensor T);
  name : string;
  beta : option (tensor T);
  bias : option (vector T);
  alpha : option (tensor T);
  input : option (tensor T);
  output : option (tensor T);
  act_params : option (gmap string (pyval T));
  beta_optimizer : option (ELMOptimizer T);
  is_orthogonalized : bool;
  activation_name : string;
  activation : T -> T;
  number_neurons : pyval T;
  C : option T;
  receptive_field_generator : option (ReceptiveFieldGenerator T);
  denoising : option (pyval T);
  denoising_param : option (pyval T);
  constrained : bool
}.

(** Attribute assignments [self.f = v]. *)
Definition set_error_history (v : option (list T)) (l : ELMLayer) : ELMLayer :=
  {| error_history := v; feature_map := feature_map l; name := name l;
     beta := beta l; bias := bias l; alpha := alpha l; input := input l;
     output := output l; act_params := act_params l;
     beta_optimizer := beta_optimizer l;
     is_orthogonalized := is_orthogonalized l;
     activation_name := activation_name l; activation := activation l;
     number_neurons := number_neurons l; C := C l;
     receptive_field_generator := receptive_field_generator l;
     denoising := denoising l; denoising_param := denoising_param l;
     constrained := constrained l |}.

Definition set_feature_map (v : option (tensor T)) (l : ELMLayer) : ELMLayer :=
  {| error_history := error_history l; feature_map := v; name := name l;
     beta := beta l; bias := bias l; alpha := alpha l; input := input l;
     output := output l; act_params := act_params l;
     beta_optimizer := beta_optimizer l;
     is_orthogonalized := is_orthogonalized l;
     activation_name := activation_name l; activation := activation l;
     number_neurons := number_neurons l; C := C l;
     receptive_field_generator := receptive_field_generator l;
     denoising := denoising l; denoising_param := denoising_param l;
     constrained := constrained l |}.

Definition set_beta (v : option (tensor T)) (l : ELMLayer) : ELMLayer :=
  {| error_history := error_history l; feature_map := feature_map l;
     name := name l; beta := v; bias := bias l; alpha := alpha l;
     input := input l; output := output l; act_params := act_params l;
     beta_optimizer := beta_optimizer l;
     is_orthogonalized := is_orthogonalized l;
     activation_name := activation_name l; activation := activation l;
     number_neurons := number_neurons l; C := C l;
     receptive_field_generator := receptive_field_generator l;
     denoising := denoising l; denoising_param := denoising_param l;
     constrained := constrained l |}.

Definition set_bias (v : option (vector T)) (l : ELMLayer) : ELMLayer :=
  {| error_history := error_history l; feature_map := feature_map l;
     name := name l; beta := beta l; bias := v; alpha := alpha l;
     input := input l; output := output l; act_params := act_params l;
     beta_optimizer := beta_optimizer l;
     is_orthogonalized := is_orthogonalized l;
     activation_name := activation_name l; activation := activation l;
     number_neurons := number_neurons l; C := C l;
     receptive_field_generator := receptive_field_generator l;
     denoising := denoising l; denoising_param := denoising_param l;
     constrained := constrained l |}.

Definition set_alpha (v : option (tensor T)) (l : ELMLayer) : ELMLayer :=
  {| error_history := error_history l; feature_map := feature_map l;
     name := name l; beta := beta l; bias := bias l; alpha := v;
     input := input l; output := output l; act_params := act_params l;
     beta_optimizer := beta_optimizer l;
     is_orthogonalized := is_orthogonalized l;
     activation_name := activation_name l; activation := activation l;
     number_neurons := number_neurons l; C := C l;
     receptive_field_generator := receptive_field_generator l;
     denoising := denoising l; denoising_param := denoising_param l;
     constrained := constrained l |}.

Definition set_input (v : option (tensor T)) (l : ELMLayer) : ELMLayer :=
  {| error_history := error_history l; feature_map := feature_map l;
     name := name l; beta := beta l; bias := bias l; alpha := alpha l;
     input := v; output := output l; act_params := act_params l;
     beta_optimizer := beta_optimizer l;
     is_orthogonalized := is_orthogonalized l;
     activation_name := activation_name l; activation := activation l;
     number_neurons := number_neurons l; C := C l;
     receptive_field_generator := receptive_field_generator l;
     denoising := denoising l; denoising_param := denoising_param l;
     constrained := constrained l |}.

Definition set_output (v : option (tensor T)) (l : ELMLayer) : ELMLayer :=
  {| error_history := error_history l; feature_map := feature_map l;
     name := name l; beta := beta l; bias := bias l; alpha := alpha l;
     input := input l; output := v; act_params := act_params l;
     beta_optimizer := beta_optimizer l;
     is_orthogonalized := is_orthogonalized l;
     activation_name := activation_name l; activation := activation l;
     number_neurons := number_neurons l; C := C l;
     receptive_field_generator := receptive_field_generator l;
     denoising := denoising l; denoising_param := denoising_param l;
     constrained := constrained l |}.

(** *** Methods as computations on [self] *)

Definition M (A : Type) : Type := ELMLayer -> result A * ELMLayer.

Definition ret {A} (a : A) : M A := fun self => (Ok a, self).

Definition bind {A B} (c : M A) (k : A -> M B) : M B :=
  fun self =>
    match c self with
    | (Ok a, self') => k a self'
    | (Raise e, self') => (Raise e, self')
    end.

Definition get_self : M ELMLayer := fun self => (Ok self, self).

Definition assign (f : ELMLayer -> ELMLayer) : M unit :=
  fun self => (Ok tt, f self).

Definition lift {A} (r : result A) : M A := fun self => (r, self).

Notation "x <- c ;; k" := (bind c (fun x => k))
  (at level 100, c at next level, right associativity).
Notation "c ;; k" := (bind c (fun _ => k))
  (at level 100, right associativity).

(** *** [__init__] *)

(** A weight passed through [**params]. The attribute is documented as a
    tensor or [None]; a keyword value of any other type is rejected here
    rather than at its first use. *)
Definition param_tensor (params : gmap string (pyval T)) (key : string)
  : result (option (tensor T)) :=
  match params !! key with
  | None => Ok None
  | Some (PTensor t) => Ok (Some t)
  | Some _ => Raise TypeError
  end.

Definition param_vector (params : gmap string (pyval T)) (key : string)
  : result (option (vector T)) :=
  match params !! key with
  | None => Ok None
  | Some (PVector v) => Ok (Some v)
  | Some _ => Raise TypeError
  end.

(** The [if]/[elif] chain selecting the [ActivationFunction] constructor
    call from [act_params]. *)
Definition activation_ctor (act_params : option (gmap string (pyval T)))
  : result (act_ctor T) :=
  match act_params with
  | None => Ok (ActPositional s_one)
  | Some d =>
      match d !! "act_param", d !! "act_param2", d !! "knots" with
      | Some p, Some p2, _ => Ok (ActParam2 p p2)
      | Some p, None, _ => Ok (ActParam p)
      | None, _, Some k => Ok (ActKnots k)
      | None, _, None =>
          Raise (Exception
                   "TypeError: Wrong specified activation function parameters")
      end
  end.

Definition ELMLayer_init
    (number_neurons : pyval T)
    (activation : string)
    (act_params : option (gmap string (pyval T)))
    (C : option T)
    (beta_optimizer : option (ELMOptimizer T))
    (is_orthogonalized : bool)
    (receptive_field_generator : option (ReceptiveFieldGenerator T))
    (params : gmap string (pyval T)) : result ELMLayer :=
  let* act := activation_ctor act_params in
  let* f := ActivationFunction act activation in
  let* beta := param_tensor params "beta" in
  let params := delete "beta" params in
  let* alpha := param_tensor params "alpha" in
  let params := delete "alpha" params in
  let* bias := param_vector params "bias" in
  let params := delete "bias" params in
  let denoising := params !! "denoising" in
  let params := delete "denoising" params in
  let denoising_param := params !! "denoising_param" in
  let params := delete "denoising_param" params in
  let constrained :=
    match params !! "constrained" with
    | Some (PBool true) => true
    | _ => false
    end in
  let* rf :=
    match params !! "rf_name" with
    | None => Ok receptive_field_generator
    | Some (PStr rf_name) => let* rf := rf_load rf_name params in Ok (Some rf)
    | Some _ => Raise NameError
    end in
  Ok {| error_history := None; feature_map := None; name := "elm";
        beta := beta; bias := bias; alpha := alpha;
        input := None; output := None;
        act_params := act_params; beta_optimizer := beta_optimizer;
        is_orthogonalized := is_orthogonalized;
        activation_name := activation; activation := f;
        number_neurons := number_neurons; C := C;
        receptive_field_generator := rf;
        denoising := denoising; denoising_param := denoising_param;
        constrained := constrained |}.

(** *** [build] *)

Definition build (input_shape : list nat) (g : rng) : M rng :=
  self <- get_self ;;
  alpha <- lift (match last input_shape with
                 | Some d => Ok d
                 | None => Raise IndexError
                 end) ;;
  n <- lift (match number_neurons self with
             | PInt z => if decide (0 <= z)%Z then Ok (Z.to_nat z)
                         else Raise InvalidArgumentError
             | _ => Raise TypeError
             end) ;;
  let '(a, g) :=
    tf_random_uniform_initializer2 (s_opp s_one) s_one alpha n g in
  assign (set_alpha (Some a)) ;;
  let '(b, g) := tf_random_uniform_initializer1 s_zero s_one n g in
  assign (set_bias (Some b)) ;;
  (if is_orthogonalized self then
     a' <- lift (gram_schmidt a) ;;
     assign (set_alpha (Some a')) ;;
     assign (set_bias (Some (tf_div_scalar b (tf_norm b))))
   else ret tt) ;;
  ret g.

(** *** [fit] *)

(** [H = tf.linalg.set_diag(H, tf.linalg.diag_part(H) + self.C)] under the
    guard [self.C is not None]. *)
Definition regularize (c : option T) (h : tensor T) : result (tensor T) :=
  match c with
  | Some c =>
      tf_linalg_set_diag h (tf_add_scalar (tf_linalg_diag_part h) c)
  | None => Ok h
  end.

Definition fit (x y : tensor T) : M unit :=
  let x := tf_cast x in
  let y := tf_cast y in
  assign (set_input (Some x)) ;;
  self <- get_self ;;
  (if constrained self then
     (* the generated weights are not bound to anything *)
     _ <- lift (generate_contrainted_weights x y (number_neurons self)) ;;
     ret tt
   else ret tt) ;;
  (match receptive_field_generator self, alpha self with
   | Some rf, Some a =>
       a' <- lift (generate_receptive_fields rf a) ;;
       assign (set_alpha (Some a'))
   | Some rf, None =>
       (* no tensor to mutate; the product below raises *)
       ret tt
   | None, _ => ret tt
   end) ;;
  self <- get_self ;;
  xa <- lift (tf_matmul x (alpha self) false) ;;
  h <- lift (tf_add xa (bias self)) ;;
  let h := tmap (activation self) h in
  h <- lift (regularize (C self) h) ;;
  let pH := tf_linalg_pinv h in
  beta0 <- lift (tf_matmul pH (Some y) false) ;;
  assign (set_beta (Some beta0)) ;;
  (match beta_optimizer self with
   | Some opt =>
       r <- lift (optimize opt beta0 h y) ;;
       assign (set_beta (Some (fst r))) ;;
       assign (set_error_history (Some (snd r)))
   | None => assign (set_beta (Some beta0))
   end) ;;
  assign (set_feature_map (Some h)) ;;
  self <- get_self ;;
  out <- lift (tf_matmul h (beta self) false) ;;
  assign (set_output (Some out)).

(** *** [predict], [predict_proba], [calc_output], [apply_activation] *)

Definition predict (x : tensor T) : M (tensor T) :=
  let x := tf_cast x in
  self <- get_self ;;
  xa <- lift (tf_matmul x (alpha self) false) ;;
  h <- lift (tf_add xa (bias self)) ;;
  let h := tmap (activation self) h in
  out <- lift (tf_matmul h (beta self) false) ;;
  ret out.

Definition predict_proba (x : tensor T) : M (tensor T) :=
  let x := tf_cast x in
  pred <- predict x ;;
  ret (tf_keras_activations_softmax pred).

Definition calc_output (x : tensor T) : M (tensor T) :=
  let x := tf_cast x in
  self <- get_self ;;
  xb <- lift (tf_matmul x (beta self) true) ;;
  let out := tmap (activation self) xb in
  assign (set_output (Some out)) ;;
  ret out.

Definition apply_activation (x : tensor T) : M (tensor T) :=
  self <- get_self ;;
  ret (tmap (activation self) x).

(** *** [count_params] *)

Record param_counts := {
  trainable : nat;
  non_trainable : nat;
  all : nat
}.

Definition count_params (self : ELMLayer) : param_counts :=
  let trainable :=
    match beta self with
    | None => 0
    | Some b => fst (shape b) * snd (shape b)
    end in
  let non_trainable :=
    match alpha self, bias self with
    | Some a, Some b => fst (shape a) * snd (shape a) + length b
    | _, _ => 0
    end in
  {| trainable := trainable; non_trainable := non_trainable;
     all := trainable + non_trainable |}.

(** *** [to_dict] and [load] *)

Definition to_dict (self : ELMLayer) : gmap string (pyval T) :=
  let attributes : gmap string (option (pyval T)) :=
    list_to_map
      [ ("name", Some (PStr "ELMLayer"));
        ("number_neurons", Some (number_neurons self));
        ("activation", Some (PStr (activation_name self)));
        ("act_params", PDict <$> act_params self);
        ("C", PFloat <$> C self);
        ("is_orthogonalized", Some (PBool (is_orthogonalized self)));
        ("beta", PTensor <$> beta self);
        ("alpha", PTensor <$> alpha self);
        ("bias", PVector <$> bias self);
        ("denoising", denoising self);
        ("denoising_param", denoising_param self) ] in
  let attributes :=
    match receptive_field_generator self with
    | Some rf => rf_to_dict rf ∪ attributes
    | None => attributes
    end in
  omap id attributes.

(** [cls(attributes)]: the dictionary is the only positional argument, so it
    is bound to [number_neurons]; every other parameter takes its default
    and [**params] is empty. *)
Definition load (attributes : gmap string (pyval T)) : result ELMLayer :=
  ELMLayer_init (PDict attributes) "tanh" None (Some s_zero) None false None ∅.

End Layer.

Arguments ELMLayer T : clear implicits.
Arguments M T A : clear implicits.

(** ** An exact instance over the rationals

    Rational arithmetic stands in for [float32], so that the layer can be
    run on concrete data. Scalars are rationals in lowest terms, for which
    numerical equality is equality. The pseudoinverse is computed exactly
    by Greville's column recursion; square roots, [exp] and [tanh] are
    rational approximations. *)

Module Exact.
#[local] Open Scope Qc_scope.

#[export] Instance Qc_scalar : Scalar Qc := {|
  s_zero := 0;
  s_one := 1;
  s_add := Qcplus;
  s_mul := Qcmult;
  s_div := Qcdiv;
  s_opp := Qcopp
|}.

Definition dotQ (u v : list Qc) : Qc :=
  fold_left Qcplus (zip_with Qcmult u v) 0.

(** [sum_j d_j * vs_j] for vectors [vs_j] of length [m]. *)
Definition lincombQ (m : nat) (d : list Qc) (vs : list (list Qc)) : list Qc :=
  fold_left
    (fun acc dv => zip_with Qcplus acc (map (Qcmult (fst dv)) (snd dv)))
    (zip d vs) (replicate m 0).

Definition is_zeroQ (v : list Qc) : bool :=
  forallb (fun q : Qc => Qeq_bool q 0%Q) v.

(** One step of Greville's recursion: from the columns [A] seen so far and
    the rows [P] of their pseudoinverse to those of [A] extended by the
    column [a]. *)
Definition greville_step (m : nat)
    (st : list (list Qc) * list (list Qc)) (a : list Qc)
  : list (list Qc) * list (list Qc) :=
  let '(A, P) := st in
  let d := map (fun p => dotQ p a) P in
  let c := zip_with Qcminus a (lincombQ m d A) in
  let b :=
    if is_zeroQ c then
      map (fun q => q / (1 + dotQ d d)) (lincombQ m d P)
    else map (fun q => q / dotQ c c) c in
  (A ++ [a],
   zip_with (fun p dj => zip_with Qcminus p (map (Qcmult dj) b)) P d ++ [b]).

Definition pinvQ (t : tensor Qc) : tensor Qc :=
  let '(n, m) := shape t in
  let P := snd (fold_left (greville_step n) (rows (transpose t)) ([], [])) in
  tabulate m n (fun i j => nth j (nth i P []) 0).

(** Square root to six decimal places. *)
Definition sqrtQ (q : Qc) : Qc :=
  Q2Qc (Z.sqrt (Qnum q * Zpos (Qden q) * 10 ^ 12)%Z # (Qden q * 10 ^ 6)).

Definition normQ (v : list Qc) : Qc := sqrtQ (dotQ v v).

(** Taylor polynomial of [exp] of degree 8. *)
Definition expQ (x : Qc) : Qc :=
  fold_right (fun k acc => 1 + x * acc / Q2Qc (inject_Z (Z.of_nat k))) 1
    (seq 1%nat 8%nat).

Definition softmaxQ (t : tensor Qc) : tensor Qc :=
  tabulate (fst (shape t)) (snd (shape t))
    (fun i j =>
       let e := map expQ (nth i (rows t) []) in
       nth j e 0 / fold_left Qcplus e 0).

(** A linear congruential generator; the ten high bits of the state give a
    draw in [[0, 1)], scaled into [[lo, hi)]. *)
Definition lcg (g : Z) : Z := ((1103515245 * g + 12345) mod 2 ^ 31)%Z.

Fixpoint draws (lo hi : Qc) (k : nat) (g : Z) : list Qc * Z :=
  match k with
  | O => ([], g)
  | S k =>
      let g' := lcg g in
      let r := draws lo hi k g' in
      (lo + (hi - lo) * Q2Qc ((g' / 2 ^ 21)%Z # 2 ^ 10) :: fst r, snd r)
  end.

Definition random_uniform2Q (lo hi : Qc) (n m : nat) (g : Z)
  : tensor Qc * Z :=
  let r := draws lo hi (n * m)%nat g in
  (tabulate n m (fun i j => nth (i * m + j)%nat (fst r) 0), snd r).

#[export] Instance Qc_tensorflow : TensorFlow Qc := {|
  rng := Z;
  tf_random_uniform_initializer2 := random_uniform2Q;
  tf_random_uniform_initializer1 := fun lo hi n g => draws lo hi n g;
  tf_linalg_pinv := pinvQ;
  tf_norm := normQ;
  tf_keras_activations_softmax := softmaxQ
|}.

Definition three : Qc := Q2Qc 3.

(** Pade approximant of [tanh] on [[-3, 3]], saturated outside. *)
Definition tanhQ (x : Qc) : Qc :=
  if Qle_bool three x then 1
  else if Qle_bool x (- three)%Qc then - (1)
  else x * (Q2Qc 27 + x * x) / (Q2Qc 27 + Q2Qc 9 * (x * x)).

Definition reluQ (x : Qc) : Qc := if Qle_bool 0 x then x else 0.

Definition activationQ (name : string) : option (Qc -> Qc) :=
  if decide (name = "identity") then Some (fun x => x)
  else if decide (name = "relu") then Some reluQ
  else if decide (name = "tanh") then Some tanhQ
  else None.

(** The exact catalogue is asked for names only: the empty string is not an
    expression, and any other string is looked up as an attribute. *)
Definition eval_activationQ (name : string) : result (Qc -> Qc) :=
  if decide (name = "") then Raise SyntaxError
  else match activationQ name with
       | Some f => Ok f
       | None => Raise AttributeError
       end.

(** Modelled from the spec: [Resources.gram_schmidt] is not among the
    sources. "Gram-Schmidt over columns of the random matrix": each column
    has its projections on the previous results removed and is then
    normalized. *)
Definition gram_schmidt_step (m : nat) (qs : list (list Qc)) (v : list Qc)
  : list (list Qc) :=
  let u := zip_with Qcminus v (lincombQ m (map (fun q => dotQ q v) qs) qs) in
  let nu := normQ u in
  qs ++ [if Qeq_bool nu 0%Q then u else map (fun e => e / nu) u].

Definition gram_schmidtQ (a : tensor Qc) : result (tensor Qc) :=
  let '(n, m) := shape a in
  let qs := fold_left (gram_schmidt_step n) (rows (transpose a)) [] in
  Ok (tabulate n m (fun i j => nth i (nth j qs []) 0)).

(** Modelled from the spec: [Resources.generate_contrainted_weights] is not
    among the sources. "Input weights are derived from a combination of the
    data and labels": neuron [j] gets the feature sums weighted by target
    column [j mod outputs]. *)
Definition generate_contrainted_weightsQ
    (x y : tensor Qc) (number_neurons : pyval Qc) : result (tensor Qc) :=
  match number_neurons with
  | PInt z =>
      Ok (tabulate (snd (shape x)) (Z.to_nat z)
            (fun d j =>
               fold_left Qcplus
                 (map (fun i => get x i d * get y i (j mod snd (shape y))%nat)
                    (seq 0%nat (fst (shape x)))) 0))
  | _ => Raise TypeError
  end.

#[export] Instance Qc_resources : Resources Qc := {|
  ActivationFunction := fun _ name => eval_activationQ name;
  gram_schmidt := gram_schmidtQ;
  generate_contrainted_weights := generate_contrainted_weightsQ;
  rf_load := fun _ _ => Raise NameError
|}.

(** Integer entries as a tensor of the stated shape. *)
Definition mat (n m : nat) (r : list (list Z)) : tensor Qc :=
  Tensor (n, m) (map (map (fun z => Q2Qc (inject_Z z))) r).

(** The entries of a tensor as fractions. *)
Definition entries (t : tensor Qc) : list (list Q) :=
  map (map this) (rows t).

End Exact.

(** ** Concrete layers used to run the code *)

Module Scenario.
Import Exact.

Definition x1 : tensor Qc := mat 1 1 [[1%Z]].
Definition y1 : tensor Qc := mat 1 1 [[1%Z]].

Definition blank : ELMLayer Qc :=
  {| error_history := None; feature_map := None; name := "elm";
     beta := None; bias := None; alpha := None; input := None;
     output := None; act_params := None; beta_optimizer := None;
     is_orthogonalized := false; activation_name := "identity";
     activation := fun v => v; number_neurons := PInt 0; C := None;
     receptive_field_generator := None; denoising := None;
     denoising_param := None; constrained := false |}.

Definition the (r : result (ELMLayer Qc)) : ELMLayer Qc :=
  match r with
  | Ok l => l
  | Raise _ => blank
  end.

(** [ELMLayer(number_neurons=1, activation='identity', C=c, **params)] *)
Definition constructed (c : option Qc) (params : gmap string (pyval Qc))
  : ELMLayer Qc :=
  the (ELMLayer_init (PInt 1) "identity" None c None false None params).

(** ... after [build((1, 1))] with the generator in state 42 *)
Definition built (c : option Qc) (params : gmap string (pyval Qc))
  : ELMLayer Qc :=
  snd (build [1; 1] 42%Z (constructed c params)).

(** ... after [fit(x1, y1)] *)
Definition fitted (c : option Qc) (params : gmap string (pyval Qc))
  : ELMLayer Qc :=
  snd (fit x1 y1 (built c params)).

(** Keyword arguments handing weights to the constructor. *)
Definition weights : gmap string (pyval Qc) :=
  <["alpha" := PTensor (mat 1 1 [[1%Z]])]>
    (<["bias" := PVector [0%Qc]]>
       {["beta" := PTensor (mat 1 1 [[1%Z]])]}).

Definition with_constrained : gmap string (pyval Qc) :=
  {["constrained" := PBool true]}.

(** An optimizer that gives up. *)
Definition failing : ELMOptimizer Qc :=
  {| optimize := fun _ _ _ => Raise (Exception "optimizer diverged") |}.

(** A receptive field generator that leaves the weights alone and whose
    dictionary carries its own name and a [None] under ["alpha"]. *)
Definition patches : ReceptiveFieldGenerator Qc :=
  {| generate_receptive_fields := fun w => Ok w;
     rf_to_dict :=
       <["rf_name" := Some (PStr "ReceptiveFieldGenerator")]>
         {["alpha" := None]} |}.

(** [ELMLayer(number_neurons=n, activation='identity', C=0.0,
    beta_optimizer=opt, is_orthogonalized=orth,
    receptive_field_generator=rf)] *)
Definition configured (n : Z) (opt : option (ELMOptimizer Qc)) (orth : bool)
    (rf : option (ReceptiveFieldGenerator Qc)) : ELMLayer Qc :=
  the (ELMLayer_init (PInt n) "identity" None (Some 0%Qc) opt orth rf ∅).

(** Resources whose [gram_schmidt] refuses a matrix with more columns than
    rows, and is the exact one otherwise. *)
Definition strict_resources : Resources Qc :=
  {| ActivationFunction := fun _ name => eval_activationQ name;
     gram_schmidt := fun a =>
       if decide (fst (shape a) < snd (shape a))
       then Raise (Exception "more columns than rows")
       else gram_schmidtQ a;
     generate_contrainted_weights := generate_contrainted_weightsQ;
     rf_load := fun _ _ => Raise NameError |}.

(** A built layer whose optimizer gives up. *)
Definition built_failing : ELMLayer Qc :=
  snd (build [1; 1] 42%Z (configured 1 (Some failing) false None)).

(** A built, constrained layer with a receptive field generator and an
    optimizer that gives up. *)
Definition built_failing_patched : ELMLayer Qc :=
  snd (build [1; 1] 42%Z
         (the (ELMLayer_init (PInt 1) "identity" None (Some 0%Qc)
                 (Some failing) false (Some patches) with_constrained))).

Definition x2 : tensor Qc := mat 2 1 [[1%Z]; [2%Z]].
Definition wide : tensor Qc := mat 1 2 [[1%Z; 2%Z]].

End Scenario.

(** * Properties *)

(** ** Tensors *)

Section TensorFacts.
Context {T : Type} `{Scalar T}.
Implicit Types (t h : tensor T) (f g : nat -> nat -> T).

Lemma nth_map_seq {A} (d : A) (u : nat -> A) (k i : nat) :
  i < k -> nth i (map u (seq 0 k)) d = u i.
Proof.
  intros Hi.
  rewrite (nth_indep _ d (u 0)) by (rewrite length_map, length_seq; lia).
  change (u 0) with (u (0 : nat)).
  rewrite (map_nth u (seq 0 k) 0 i), seq_nth by lia. reflexivity.
Qed.

Lemma get_tabulate n m f i j :
  i < n -> j < m -> get (tabulate n m f) i j = f i j.
Proof.
  intros Hi Hj. unfold get, tabulate. simpl.
  rewrite (nth_map_seq [] (fun i => map (fun j => f i j) (seq 0 m))) by lia.
  apply (nth_map_seq s_zero (fun j => f i j)). lia.
Qed.

Lemma tabulate_ext n m f g :
  (forall i j, i < n -> j < m -> f i j = g i j) ->
  tabulate n m f = tabulate n m g.
Proof.
  intros Hfg. unfold tabulate. f_equal.
  apply map_ext_in. intros i Hi%in_seq.
  apply map_ext_in. intros j Hj%in_seq.
  apply Hfg; lia.
Qed.

Lemma wf_tabulate n m f : wf_tensor (tabulate n m f).
Proof.
  unfold wf_tensor. simpl.
  apply tabulate_ext. intros i j Hi Hj. by apply get_tabulate.
Qed.

Lemma wf_tmap (u : T -> T) t : wf_tensor (tmap u t).
Proof. apply wf_tabulate. Qed.

Lemma shape_tmap (u : T -> T) t : shape (tmap u t) = shape t.
Proof. unfold tmap. simpl. by destruct (shape t). Qed.

Lemma length_diag_part h :
  length (tf_linalg_diag_part h) = Nat.min (fst (shape h)) (snd (shape h)).
Proof. unfold tf_linalg_diag_part. by rewrite length_map, length_seq. Qed.

Lemma nth_diag_part_add h c i :
  i < Nat.min (fst (shape h)) (snd (shape h)) ->
  nth i (tf_add_scalar (tf_linalg_diag_part h) c) s_zero
  = s_add (get h i i) c.
Proof.
  intros Hi. unfold tf_add_scalar, tf_linalg_diag_part.
  rewrite map_map.
  apply (nth_map_seq s_zero (fun i => s_add (get h i i) c)). lia.
Qed.

(** The regularization step succeeds, keeps the shape, adds [c] to each
    diagonal entry and leaves the others alone. *)
Lemma regularize_Some h c :
  exists h',
    regularize (Some c) h = Ok h' /\
    shape h' = shape h /\
    forall i j, i < fst (shape h) -> j < snd (shape h) ->
      get h' i j = if decide (i = j) then s_add (get h i j) c else get h i j.
Proof.
  unfold regularize, tf_linalg_set_diag.
  rewrite decide_True
    by (unfold tf_add_scalar; rewrite length_map; apply length_diag_part).
  eexists. split; [reflexivity|]. split.
  - simpl. by destruct (shape h).
  - intros i j Hi Hj. rewrite get_tabulate by done.
    destruct (decide (i = j)) as [->|]; [|done].
    apply nth_diag_part_add. lia.
Qed.

Lemma regularize_shape c h h' :
  regularize c h = Ok h' -> shape h' = shape h.
Proof.
  destruct c as [c|]; [|by intros [= ->]].
  destruct (regularize_Some h c) as (h2 & -> & Hs & _). by intros [= <-].
Qed.

(** Adding a zero [C] gives the feature map back. *)
Lemma regularize_zero `{!ScalarLaws T} h :
  wf_tensor h -> regularize (Some s_zero) h = Ok h.
Proof.
  intros Hwf. unfold regularize, tf_linalg_set_diag.
  rewrite decide_True
    by (unfold tf_add_scalar; rewrite length_map; apply length_diag_part).
  f_equal. rewrite <- Hwf at 3. apply tabulate_ext. intros i j Hi Hj.
  destruct (decide (i = j)) as [->|]; [|done].
  rewrite nth_diag_part_add by lia. apply s_add_zero_r.
Qed.

Lemma tf_matmul_shape a b tb r :
  tf_matmul a (Some b) tb = Ok r ->
  shape r = (fst (shape a),
             if tb then fst (shape b) else snd (shape b)) /\
  snd (shape a) = (if tb then snd (shape b) else fst (shape b)).
Proof.
  unfold tf_matmul. destruct tb; simpl; case_decide; intros [= <-]; done.
Qed.

Lemma tf_matmul_transpose_b_entry a b r i j :
  tf_matmul a (Some b) true = Ok r ->
  i < fst (shape a) -> j < fst (shape b) ->
  get r i j =
    s_sum (map (fun k => s_mul (get a i k) (get b j k))
             (seq 0 (snd (shape a)))).
Proof.
  unfold tf_matmul. simpl. case_decide as Hd; intros [= <-] Hi Hj.
  rewrite get_tabulate by done. f_equal.
  apply map_ext_in. intros k Hk%in_seq.
  unfold transpose. rewrite (get_tabulate _ _ _ k j) by lia. reflexivity.
Qed.

Lemma broadcast_dim_same (m : nat) : broadcast_dim m m = m.
Proof. unfold broadcast_dim. by case_decide. Qed.

Lemma tf_add_shape h b r :
  tf_add h (Some b) = Ok r ->
  shape r = (fst (shape h), broadcast_dim (snd (shape h)) (length b)).
Proof.
  unfold tf_add. destruct (shape h) as [n m]. case_decide; intros [= <-]; done.
Qed.

End TensorFacts.

(** ** The layer *)

Section LayerFacts.
Context {T : Type} `{Scalar T} `{TensorFlow T} `{Resources T}.
Implicit Types (l : ELMLayer T) (x y : tensor T).

#[local] Arguments tf_matmul : simpl never.
#[local] Arguments tf_add : simpl never.
#[local] Arguments tmap : simpl never.
#[local] Arguments regularize : simpl never.
#[local] Arguments tf_linalg_pinv : simpl never.

(** Read attributes through assignments. *)
#[local] Ltac attrs :=
  cbn [fst snd error_history feature_map name beta bias alpha input output
       act_params beta_optimizer is_orthogonalized activation_name
       activation number_neurons C receptive_field_generator denoising
       denoising_param constrained set_input set_alpha set_bias set_beta
       set_error_history set_feature_map set_output] in *.

(** Unfold the monad. *)
#[local] Ltac run_in Hrun :=
  unfold bind, lift, assign, get_self, ret, tf_cast in Hrun; attrs.

#[local] Ltac run :=
  unfold bind, lift, assign, get_self, ret, tf_cast; attrs.

(** Follow every branch of the computation. *)
#[local] Ltac branches := repeat (case_match; attrs; simplify_eq).

(** What a successful [fit] has computed and stored. *)
Lemma fit_Ok_inv l x y l' :
  fit x y l = (Ok tt, l') ->
  exists xa z h beta0 out,
    tf_matmul x (alpha l') false = Ok xa /\
    tf_add xa (bias l') = Ok z /\
    regularize (C l') (tmap (activation l') z) = Ok h /\
    tf_matmul (tf_linalg_pinv h) (Some y) false = Ok beta0 /\
    match beta_optimizer l with
    | None => beta l' = Some beta0 /\ error_history l' = error_history l
    | Some opt =>
        exists r, optimize opt beta0 h y = Ok r /\
          beta l' = Some (fst r) /\ error_history l' = Some (snd r)
    end /\
    feature_map l' = Some h /\
    tf_matmul h (beta l') false = Ok out /\
    output l' = Some out /\
    input l' = Some x /\
    bias l' = bias l /\
    match receptive_field_generator l, alpha l with
    | Some rf, Some a =>
        exists a', generate_receptive_fields rf a = Ok a' /\
                   alpha l' = Some a'
    | _, _ => alpha l' = alpha l
    end.
Proof.
  intros Hfit. unfold fit in Hfit. run_in Hfit.
  branches; do 5 eexists; repeat split; eauto.
Qed.

(** [fit] without a receptive field generator never assigns [self.alpha],
    whether or not it succeeds. *)
Lemma fit_alpha_without_rf l x y :
  receptive_field_generator l = None ->
  alpha (snd (fit x y l)) = alpha l.
Proof.
  intros Hrf. unfold fit. run. rewrite Hrf.
  branches; done.
Qed.

(** C1 (as amended). For a layer whose regularization strength [C] is zero
    or [None], once [fit(x, y)] has succeeded, [predict(x)] returns exactly
    the [output] that [fit] cached: both paths compute
    [f(x . alpha + bias) . beta]. *)
Theorem predict_after_fit_is_output `{!ScalarLaws T} l x y l' :
  C l = None \/ C l = Some s_zero ->
  fit x y l = (Ok tt, l') ->
  exists out, output l' = Some out /\ predict x l' = (Ok out, l').
Proof.
  intros HC Hfit.
  assert (HC' : C l' = C l).
  { clear HC. unfold fit in Hfit. run_in Hfit. branches; done. }
  destruct (fit_Ok_inv _ _ _ _ Hfit)
    as (xa & z & h & beta0 & out & Hxa & Hz & Hreg & _ & _ & _ & Hout & Ho & _).
  assert (h = tmap (activation l') z) as ->.
  { rewrite HC' in Hreg. destruct HC as [HC|HC]; rewrite HC in Hreg.
    - by injection Hreg.
    - rewrite regularize_zero in Hreg by apply wf_tmap. by injection Hreg. }
  exists out. split; [done|].
  unfold predict. run. by rewrite Hxa, Hz, Hout.
Qed.

(** C4. In a successful [fit], with [H = f(x . alpha + bias)] computed from
    the weights the layer ends up with, the matrix cached as [feature_map]
    and handed to the pseudoinverse has the shape of [H] and, when [C] is a
    number [c], the entries of [H] with [c] added on the diagonal and
    nowhere else; when [C] is zero (or [None]) it is [H] itself. *)
Theorem fit_regularization_on_diagonal `{!ScalarLaws T} l x y l' :
  fit x y l = (Ok tt, l') ->
  exists xa z hreg beta0,
    tf_matmul x (alpha l') false = Ok xa /\
    tf_add xa (bias l') = Ok z /\
    feature_map l' = Some hreg /\
    tf_matmul (tf_linalg_pinv hreg) (Some y) false = Ok beta0 /\
    let h := tmap (activation l') z in
    shape hreg = shape h /\
    (forall c, C l = Some c ->
       forall i j, i < fst (shape h) -> j < snd (shape h) ->
         get hreg i j =
           if decide (i = j) then s_add (get h i j) c else get h i j) /\
    (C l = None \/ C l = Some s_zero -> hreg = h).
Proof.
  intros Hfit.
  assert (HC' : C l' = C l).
  { unfold fit in Hfit. run_in Hfit. branches; done. }
  destruct (fit_Ok_inv _ _ _ _ Hfit)
    as (xa & z & h & beta0 & out & Hxa & Hz & Hreg & Hb0 & _ & Hfm & _).
  exists xa, z, h, beta0. rewrite HC' in Hreg.
  repeat split; try done.
  - by apply regularize_shape in Hreg.
  - intros c Hc i j Hi Hj. rewrite Hc in Hreg.
    destruct (regularize_Some (tmap (activation l') z) c)
      as (h2 & Hh2 & _ & Hent).
    rewrite Hh2 in Hreg. injection Hreg as <-. by apply Hent.
  - intros [HC|HC]; rewrite HC in Hreg.
    + by injection Hreg.
    + rewrite regularize_zero in Hreg by apply wf_tmap. by injection Hreg.
Qed.

(** C5. In a successful [fit], the closed-form solution is
    [beta0 = pinv(H) . y] for the cached feature map [H] (the activated,
    regularized [f(x . alpha + bias)]). Without an
    optimizer the stored [beta] is [beta0] and [error_history] is left as it
    was; with one, [optimize(beta0, H, y)] supplies the stored [beta] and
    the [error_history]. *)
Theorem fit_output_weights l x y l' :
  fit x y l = (Ok tt, l') ->
  exists xa z h beta0,
    tf_matmul x (alpha l') false = Ok xa /\
    tf_add xa (bias l') = Ok z /\
    regularize (C l') (tmap (activation l') z) = Ok h /\
    feature_map l' = Some h /\
    tf_matmul (tf_linalg_pinv h) (Some y) false = Ok beta0 /\
    match beta_optimizer l with
    | None => beta l' = Some beta0 /\ error_history l' = error_history l
    | Some opt =>
        exists b hist, optimize opt beta0 h y = Ok (b, hist) /\
          beta l' = Some b /\ error_history l' = Some hist
    end.
Proof.
  intros Hfit.
  destruct (fit_Ok_inv _ _ _ _ Hfit)
    as (xa & z & h & beta0 & out & Hxa & Hz & Hreg & Hb0 & Hopt & Hfm & _).
  exists xa, z, h, beta0. repeat split; try done.
  destruct (beta_optimizer l) as [opt|]; [|done].
  destruct Hopt as ([b hist] & Hr & Hb & He). by exists b, hist.
Qed.

(** What a successful [build] has stored. *)
Lemma build_Ok_inv `{!TensorFlowLaws T} `{!ResourcesLaws T}
    l input_shape g g' l' :
  build input_shape g l = (Ok g', l') ->
  exists d z a b,
    last input_shape = Some d /\
    number_neurons l = PInt z /\ (0 <= z)%Z /\
    alpha l' = Some a /\ shape a = (d, Z.to_nat z) /\
    bias l' = Some b /\ length b = Z.to_nat z /\
    beta l' = beta l /\
    beta_optimizer l' = beta_optimizer l /\
    receptive_field_generator l' = receptive_field_generator l.
Proof.
  intros Hb. unfold build in Hb. run_in Hb.
  destruct (last input_shape) as [d|]; [|done].
  destruct (number_neurons l) as [z| | | | | |]; try done.
  destruct (decide (0 <= z)%Z) as [Hz|]; [|done].
  pose proof (random_uniform2_shape (s_opp s_one) s_one d (Z.to_nat z) g)
    as Hsa.
  destruct (tf_random_uniform_initializer2 _ _ _ _ g) as [a g1].
  pose proof (random_uniform1_length s_zero s_one (Z.to_nat z) g1) as Hlb.
  destruct (tf_random_uniform_initializer1 _ _ _ g1) as [b g2].
  simpl in *. exists d, z.
  destruct (is_orthogonalized l).
  - destruct (gram_schmidt a) as [a'|] eqn:Hgs; [|done].
    apply gram_schmidt_shape in Hgs. simplify_eq. simpl.
    exists a', (tf_div_scalar b (tf_norm b)).
    unfold tf_div_scalar. rewrite length_map.
    repeat split; try done. congruence.
  - simplify_eq. simpl. exists a, b. repeat split; done.
Qed.

(** The weights of a constructed layer are those passed by keyword. *)
Lemma init_weights
    nn act ap c opt orth rf (params : gmap string (pyval T)) l :
  ELMLayer_init nn act ap c opt orth rf params = Ok l ->
  params !! "alpha" = PTensor <$> alpha l /\
  params !! "bias" = PVector <$> bias l /\
  params !! "beta" = PTensor <$> beta l.
Proof.
  unfold ELMLayer_init, result_bind, param_tensor, param_vector.
  rewrite !lookup_delete_ne by done.
  intros Hinit. branches; done.
Qed.

(** C7 (as amended). Before [build], [count_params] is all zeros for every
    layer constructed without a [beta] keyword argument and without at
    least one of [alpha] and [bias]. After a successful [build] of any
    layer on input dimensionality [d] with [number_neurons = n], it is
    [d * n + n] non-trainable, and [0] trainable as long as [beta] is
    unset. After a successful [fit] of that built layer on targets with [k]
    columns (the receptive field generator and the optimizer, if any,
    keeping the shape of the matrix they are given) it is [n * k] trainable
    and [d * n + n] non-trainable. ['all'] is the sum each time. *)
Theorem count_params_lifecycle `{!TensorFlowLaws T} `{!ResourcesLaws T} :
  (forall nn act ap c opt orth rf (params : gmap string (pyval T)) l0,
     params !! "beta" = None ->
     params !! "alpha" = None \/ params !! "bias" = None ->
     ELMLayer_init nn act ap c opt orth rf params = Ok l0 ->
     count_params l0 = {| trainable := 0; non_trainable := 0; all := 0 |}) /\
  (forall l0 input_shape d n g g' l1,
     last input_shape = Some d ->
     number_neurons l0 = PInt (Z.of_nat n) ->
     build input_shape g l0 = (Ok g', l1) ->
     non_trainable (count_params l1) = d * n + n /\
     all (count_params l1)
     = trainable (count_params l1) + non_trainable (count_params l1) /\
     (beta l0 = None ->
        count_params l1 =
          {| trainable := 0; non_trainable := d * n + n;
             all := 0 + (d * n + n) |}) /\
     forall x y l2,
       (forall gen a a', receptive_field_generator l1 = Some gen ->
          generate_receptive_fields gen a = Ok a' -> shape a' = shape a) ->
       (forall o b h t r, beta_optimizer l1 = Some o ->
          optimize o b h t = Ok r -> shape (fst r) = shape b) ->
       fit x y l1 = (Ok tt, l2) ->
       count_params l2 =
         {| trainable := n * snd (shape y); non_trainable := d * n + n;
            all := n * snd (shape y) + (d * n + n) |}).
Proof.
  split.
  { intros nn act ap c opt orth rf params l0 Hbe Hab Hinit.
    destruct (init_weights _ _ _ _ _ _ _ _ _ Hinit) as (Ha0 & Hb0 & Hbe0).
    rewrite Hbe in Hbe0. unfold count_params.
    destruct (beta l0); [done|].
    destruct Hab as [Hn|Hn].
    - rewrite Hn in Ha0. by destruct (alpha l0).
    - rewrite Hn in Hb0. destruct (alpha l0); [|done]. by destruct (bias l0). }
  intros l0 input_shape d n g g' l1 Hd Hnn Hbuild.
  destruct (build_Ok_inv _ _ _ _ _ Hbuild)
    as (d' & z & a & b & Hd' & Hz & _ & Ha1 & Hsa & Hb1 & Hlb & Hbe1 & _).
  rewrite Hd in Hd'. injection Hd' as <-.
  rewrite Hnn in Hz. injection Hz as <-.
  rewrite Nat2Z.id in Hsa, Hlb.
  split. { unfold count_params. cbn [non_trainable]. by rewrite Ha1, Hb1, Hsa, Hlb. }
  split. { reflexivity. }
  split.
  { intros Hbe0. unfold count_params.
    by rewrite Ha1, Hb1, Hbe1, Hbe0, Hsa, Hlb. }
  intros x y l2 Hrf Hoptsh Hfit.
  destruct (fit_Ok_inv _ _ _ _ Hfit)
    as (xa & z & h & beta0 & out & Hxa & Hz & Hreg & Hbeta0 & Hob & _ & _
        & _ & _ & Hb2 & Ha2).
  assert (exists a2, alpha l2 = Some a2 /\ shape a2 = (d, n))
    as (a2 & Ha2' & Hsa2).
  { rewrite Ha1 in Ha2.
    destruct (receptive_field_generator l1) as [gen|] eqn:Hgen.
    - destruct Ha2 as (a' & Hgen' & Ha'). exists a'. split; [done|].
      by rewrite (Hrf gen a a' eq_refl Hgen').
    - exists a. by rewrite Ha2. }
  rewrite Ha2' in Hxa. rewrite Hb2, Hb1 in Hz.
  apply tf_matmul_shape in Hxa as [Hsxa _].
  apply tf_add_shape in Hz. apply regularize_shape in Hreg.
  rewrite shape_tmap in Hreg.
  apply tf_matmul_shape in Hbeta0 as [Hsb0 _].
  rewrite pinv_shape, Hreg, Hz, Hsxa, Hsa2, Hlb in Hsb0. simpl in Hsb0.
  rewrite broadcast_dim_same in Hsb0.
  assert (exists b2, beta l2 = Some b2 /\ shape b2 = (n, snd (shape y)))
    as (b2 & Hb2' & Hsb2).
  { destruct (beta_optimizer l1) as [o|] eqn:Ho.
    - destruct Hob as (r & Hr & Hbr & _). exists (fst r). split; [done|].
      by rewrite (Hoptsh o _ _ _ r eq_refl Hr).
    - destruct Hob as [Hbr _]. by exists beta0. }
  unfold count_params. by rewrite Hb2', Ha2', Hb2, Hb1, Hsb2, Hsa2, Hlb.
Qed.


(** C9. On a layer with output weights [b], [calc_output(x)] computes
    [x . b^T] (entry [(i, j)] is the sum over [k] of [x[i,k] * b[j,k]]),
    applies the activation, stores the result in [output] and returns it;
    [alpha] and [bias] play no part. *)
Theorem calc_output_uses_beta_transposed l x b :
  beta l = Some b ->
  calc_output x l =
    match tf_matmul x (Some b) true with
    | Ok xb => (Ok (tmap (activation l) xb),
                set_output (Some (tmap (activation l) xb)) l)
    | Raise e => (Raise e, l)
    end /\
  (forall xb i j, tf_matmul x (Some b) true = Ok xb ->
     i < fst (shape x) -> j < fst (shape b) ->
     get xb i j =
       s_sum (map (fun k => s_mul (get x i k) (get b j k))
                (seq 0 (snd (shape x))))) /\
  (forall a' b',
     fst (calc_output x (set_bias b' (set_alpha a' l)))
     = fst (calc_output x l)).
Proof.
  intros Hbeta. split; [|split].
  - unfold calc_output.
    unfold bind, lift, assign, get_self, ret, tf_cast. rewrite Hbeta.
    by destruct (tf_matmul x (Some b) true).
  - intros xb i j Hxb Hi Hj. by apply tf_matmul_transpose_b_entry.
  - intros a' b'. unfold calc_output. run.
    by destruct (tf_matmul x (beta l) true).
Qed.

(** C10. [predict] and [predict_proba] return the layer exactly as they
    found it, whatever they return or raise: [alpha], [bias], [beta],
    [feature_map], [input], [output], [error_history] and every other
    attribute keep their values. *)
Theorem predict_leaves_layer_unchanged l x :
  snd (predict x l) = l /\ snd (predict_proba x l) = l.
Proof.
  assert (Hp : forall x', snd (predict x' l) = l).
  { intros x'. unfold predict. run. branches; done. }
  split; [apply Hp|].
  unfold predict_proba, bind, ret, tf_cast.
  specialize (Hp x). destruct (predict x l) as [[p|e] l']; simpl in *; done.
Qed.

(** [load] binds the dictionary to [number_neurons] and reads nothing from
    it. *)
Lemma load_ignores_attributes (d : gmap string (pyval T)) l :
  load d = Ok l ->
  alpha l = None /\ bias l = None /\ beta l = None /\
  number_neurons l = PDict d.
Proof.
  unfold load, ELMLayer_init, result_bind, param_tensor, param_vector.
  rewrite !delete_empty, !lookup_empty. cbn [activation_ctor].
  destruct (ActivationFunction _ _); [|done]. by intros [= <-].
Qed.

Lemma load_returns (d : gmap string (pyval T)) :
  (exists f, ActivationFunction (ActPositional s_one) "tanh" = Ok f) ->
  exists l, load d = Ok l.
Proof.
  intros [f Hf].
  unfold load, ELMLayer_init, result_bind, param_tensor, param_vector.
  rewrite !delete_empty, !lookup_empty. cbn [activation_ctor].
  rewrite Hf. eauto.
Qed.

Lemma predict_without_alpha l x :
  alpha l = None -> fst (predict x l) = Raise ValueError.
Proof.
  intros Ha. unfold predict, bind, lift, get_self. by rewrite Ha.
Qed.

(** [to_dict] holds the weights that are set and omits those that are
    [None]. *)
Lemma to_dict_weights l :
  receptive_field_generator l = None ->
  to_dict l !! "alpha" = PTensor <$> alpha l /\
  to_dict l !! "bias" = PVector <$> bias l /\
  to_dict l !! "beta" = PTensor <$> beta l.
Proof.
  intros Hrf. unfold to_dict. rewrite Hrf.
  rewrite !lookup_omap. repeat split.
Qed.

End LayerFacts.

(** ** The exact instance satisfies the interface laws *)

Section ExactLaws.
Import Exact.

Lemma Qc_scalar_laws : ScalarLaws Qc.
Proof. constructor. intros v. apply Qcplus_0_r. Qed.

Lemma length_draws lo hi k g : length (fst (draws lo hi k g)) = k.
Proof.
  revert g. induction k as [|k IH]; intros g; [reflexivity|].
  cbn [draws fst length]. by rewrite IH.
Qed.

Lemma Qc_tensorflow_laws : TensorFlowLaws Qc.
Proof.
  constructor.
  - intros lo hi n m g. reflexivity.
  - intros lo hi n g. apply length_draws.
  - intros h. cbn [tf_linalg_pinv Qc_tensorflow]. unfold pinvQ.
    destruct (shape h). reflexivity.
Qed.

Lemma Qc_resources_laws : ResourcesLaws Qc.
Proof.
  constructor. intros a a'. cbn [gram_schmidt Qc_resources].
  unfold gram_schmidtQ. destruct (shape a). intros [= <-]. reflexivity.
Qed.

End ExactLaws.

(** ** The code on concrete layers *)

Section Concrete.
Import Exact Scenario.

#[local] Ltac by_evaluation := vm_compute; reflexivity.
#[local] Ltac conjuncts :=
  cbv zeta; repeat match goal with |- _ /\ _ => split end.

(** The scenario layers are what the constructor and [build] return. *)
Lemma scenario_constructed c :
  ELMLayer_init (PInt 1) "identity" None c None false None ∅
  = Ok (constructed c ∅).
Proof. reflexivity. Qed.

Lemma scenario_built c :
  build [1; 1] 42%Z (constructed c ∅) = (Ok (lcg (lcg 42)), built c ∅).
Proof. reflexivity. Qed.

(** C1, counterexample. A layer with [C = 1], built and fitted on
    [x = [[1]]], [y = [[1]]]: [fit] caches [output = [[1]]] (computed from
    the feature map with [C] on its diagonal), [predict(x)] returns
    [[[175/431]]] (computed without it). *)
Lemma regularized_fit_output_is_not_predict :
  let l := built (Some 1%Qc) ∅ in
  let l' := fitted (Some 1%Qc) ∅ in
  fit x1 y1 l = (Ok tt, l') /\
  entries <$> output l' = Some [[1%Q]] /\
  entries <$> returned (fst (predict x1 l')) = Some [[175 # 431]] /\
  ~ (exists out, output l' = Some out /\ predict x1 l' = (Ok out, l')).
Proof.
  conjuncts; try by_evaluation.
  intros (out & Hout & Hp).
  assert (E : entries <$> returned (fst (predict x1 (fitted (Some 1%Qc) ∅)))
              = entries <$> output (fitted (Some 1%Qc) ∅))
    by (by rewrite Hp, Hout).
  vm_compute in E. discriminate E.
Qed.

Lemma predict_after_fit_is_output_witness :
  let l := built (Some 0%Qc) ∅ in
  let l' := fitted (Some 0%Qc) ∅ in
  exists out, output l' = Some out /\ predict x1 l' = (Ok out, l').
Proof.
  apply (@predict_after_fit_is_output Qc _ _ _ Qc_scalar_laws
           (built (Some 0%Qc) ∅) x1 y1).
  - right. by_evaluation.
  - by_evaluation.
Defined.

(** C2, on a concrete layer. With [constrained=True], [fit(x1, y1)]
    succeeds and [alpha] is still the matrix [[[21/128]]] drawn by [build],
    not the matrix [[[1]]] that [generate_contrainted_weights] returns for
    these data. *)
Theorem constrained_fit_keeps_build_alpha :
  let l := built (Some 0%Qc) with_constrained in
  let l' := fitted (Some 0%Qc) with_constrained in
  constrained l = true /\
  fit x1 y1 l = (Ok tt, l') /\
  entries <$> alpha l = Some [[21 # 128]] /\
  entries <$> returned
    (generate_contrainted_weights x1 y1 (number_neurons l)) = Some [[1%Q]] /\
  alpha l' = alpha l.
Proof. conjuncts; by_evaluation. Qed.

(** C3, on a concrete layer. A fitted layer predicts [[[1]]] on [x1] and its
    dictionary holds the three weight arrays; the layer that [load] makes
    of that dictionary has the dictionary as its [number_neurons], no
    weights at all, and its [predict] raises. *)
Theorem load_of_to_dict_has_no_weights :
  let l := fitted (Some 0%Qc) ∅ in
  entries <$> returned (fst (predict x1 l)) = Some [[1%Q]] /\
  to_dict l !! "alpha" = PTensor <$> alpha l /\
  to_dict l !! "bias" = PVector <$> bias l /\
  to_dict l !! "beta" = PTensor <$> beta l /\
  is_Some (alpha l) /\ is_Some (bias l) /\ is_Some (beta l) /\
  exists l',
    load (to_dict l) = Ok l' /\
    number_neurons l' = PDict (to_dict l) /\
    alpha l' = None /\ bias l' = None /\ beta l' = None /\
    fst (predict x1 l') = Raise ValueError.
Proof.
  assert (Hrf : receptive_field_generator (fitted (Some 0%Qc) ∅) = None)
    by by_evaluation.
  destruct (to_dict_weights _ Hrf) as (Hda & Hdb & Hdbe).
  destruct (load_returns (to_dict (fitted (Some 0%Qc) ∅))) as [l' Hload].
  { exists tanhQ. reflexivity. }
  destruct (load_ignores_attributes _ _ Hload) as (Ha & Hb & Hbe & Hnn).
  conjuncts.
  - by_evaluation.
  - exact Hda.
  - exact Hdb.
  - exact Hdbe.
  - vm_compute. eauto.
  - vm_compute. eauto.
  - vm_compute. eauto.
  - exists l'. conjuncts.
    + exact Hload.
    + exact Hnn.
    + exact Ha.
    + exact Hb.
    + exact Hbe.
    + by apply predict_without_alpha.
Qed.

Lemma fit_regularization_on_diagonal_witness :
  let l := built (Some 1%Qc) ∅ in
  let l' := fitted (Some 1%Qc) ∅ in
  fit x1 y1 l = (Ok tt, l') /\
  exists xa z hreg beta0,
    tf_matmul x1 (alpha l') false = Ok xa /\
    tf_add xa (bias l') = Ok z /\
    feature_map l' = Some hreg /\
    tf_matmul (tf_linalg_pinv hreg) (Some y1) false = Ok beta0 /\
    let h := tmap (activation l') z in
    shape hreg = shape h /\
    (forall c, C l = Some c ->
       forall i j, i < fst (shape h) -> j < snd (shape h) ->
         get hreg i j =
           if decide (i = j) then s_add (get h i j) c else get h i j) /\
    (C l = None \/ C l = Some s_zero -> hreg = h).
Proof.
  assert (Hfit : fit x1 y1 (built (Some 1%Qc) ∅)
                 = (Ok tt, fitted (Some 1%Qc) ∅)) by by_evaluation.
  split; [exact Hfit|].
  exact (@fit_regularization_on_diagonal Qc _ _ _ Qc_scalar_laws
           _ _ _ _ Hfit).
Defined.

Lemma fit_output_weights_witness :
  let l := built (Some 0%Qc) ∅ in
  let l' := fitted (Some 0%Qc) ∅ in
  fit x1 y1 l = (Ok tt, l') /\
  exists xa z h beta0,
    tf_matmul x1 (alpha l') false = Ok xa /\
    tf_add xa (bias l') = Ok z /\
    regularize (C l') (tmap (activation l') z) = Ok h /\
    feature_map l' = Some h /\
    tf_matmul (tf_linalg_pinv h) (Some y1) false = Ok beta0 /\
    match beta_optimizer l with
    | None => beta l' = Some beta0 /\ error_history l' = error_history l
    | Some opt =>
        exists b hist, optimize opt beta0 h y1 = Ok (b, hist) /\
          beta l' = Some b /\ error_history l' = Some hist
    end.
Proof.
  assert (Hfit : fit x1 y1 (built (Some 0%Qc) ∅)
                 = (Ok tt, fitted (Some 0%Qc) ∅)) by by_evaluation.
  split; [exact Hfit|].
  exact (@fit_output_weights Qc _ _ _ _ _ _ _ Hfit).
Defined.

(** C7, counterexample. A layer constructed with [alpha], [bias] and [beta]
    keyword arguments reports one trainable and two non-trainable
    parameters before any [build]. *)
Lemma count_params_before_build_of_passed_weights :
  let l := constructed (Some 0%Qc) weights in
  ELMLayer_init (PInt 1) "identity" None (Some 0%Qc) None false None weights
  = Ok l /\
  input l = None /\ feature_map l = None /\
  count_params l = {| trainable := 1; non_trainable := 2; all := 3 |}.
Proof. conjuncts; by_evaluation. Qed.

Lemma count_params_lifecycle_witness :
  count_params (constructed (Some 0%Qc) ∅)
  = {| trainable := 0; non_trainable := 0; all := 0 |} /\
  count_params (built (Some 0%Qc) ∅)
  = {| trainable := 0; non_trainable := 1 * 1 + 1;
       all := 0 + (1 * 1 + 1) |} /\
  count_params (fitted (Some 0%Qc) ∅)
  = {| trainable := 1 * snd (shape y1); non_trainable := 1 * 1 + 1;
       all := 1 * snd (shape y1) + (1 * 1 + 1) |} /\
  non_trainable (count_params (built (Some 0%Qc) weights)) = 1 * 1 + 1.
Proof.
  destruct (@count_params_lifecycle Qc _ _ _
              Qc_tensorflow_laws Qc_resources_laws) as [Hinit Hbuild].
  split.
  { apply (Hinit (PInt 1) "identity" None (Some 0%Qc) None false None ∅).
    - apply lookup_empty.
    - left. apply lookup_empty.
    - by_evaluation. }
  destruct (Hbuild (constructed (Some 0%Qc) ∅) [1; 1] 1 1 42%Z
              (lcg (lcg 42)) (built (Some 0%Qc) ∅))
    as (_ & _ & Hone & Hfit); [reflexivity|by_evaluation|by_evaluation|].
  split. { apply Hone. by_evaluation. }
  split.
  { apply (Hfit x1 y1).
    - intros gen a a' Hgen. exfalso. vm_compute in Hgen. discriminate Hgen.
    - intros o b h t r Ho. exfalso. vm_compute in Ho. discriminate Ho.
    - by_evaluation. }
  destruct (Hbuild (constructed (Some 0%Qc) weights) [1; 1] 1 1 42%Z
              (lcg (lcg 42)) (built (Some 0%Qc) weights))
    as (Hnt & _); [reflexivity|by_evaluation|by_evaluation|].
  exact Hnt.
Defined.



Lemma calc_output_uses_beta_transposed_witness :
  let l := fitted (Some 0%Qc) ∅ in
  let b := default x1 (beta l) in
  beta l = Some b /\
  calc_output x1 l =
    match tf_matmul x1 (Some b) true with
    | Ok xb => (Ok (tmap (activation l) xb),
                set_output (Some (tmap (activation l) xb)) l)
    | Raise e => (Raise e, l)
    end.
Proof.
  assert (Hb : beta (fitted (Some 0%Qc) ∅)
               = Some (default x1 (beta (fitted (Some 0%Qc) ∅))))
    by by_evaluation.
  split; [exact Hb|].
  exact (proj1 (calc_output_uses_beta_transposed _ x1 _ Hb)).
Defined.

End Concrete.

(** * Further properties of the layer *)

Section Lifecycle.
Context {T : Type} `{Scalar T} `{TensorFlow T} `{Resources T}.
Implicit Types (l : ELMLayer T) (x y : tensor T).

#[local] Arguments tf_matmul : simpl never.
#[local] Arguments tf_add : simpl never.
#[local] Arguments tmap : simpl never.
#[local] Arguments regularize : simpl never.
#[local] Arguments tf_linalg_pinv : simpl never.

#[local] Ltac attrs :=
  cbn [fst snd error_history feature_map name beta bias alpha input output
       act_params beta_optimizer is_orthogonalized activation_name
       activation number_neurons C receptive_field_generator denoising
       denoising_param constrained set_input set_alpha set_bias set_beta
       set_error_history set_feature_map set_output] in *.

#[local] Ltac run_in Hrun :=
  unfold bind, lift, assign, get_self, ret, tf_cast in Hrun; attrs.

#[local] Ltac run :=
  unfold bind, lift, assign, get_self, ret, tf_cast; attrs.

#[local] Ltac branches := repeat (case_match; attrs; simplify_eq).

(** *** [__init__] *)

(** X1. A dictionary of activation parameters that has neither an
    ["act_param"] nor a ["knots"] key (the empty dictionary, or one with
    only ["act_param2"]) makes the constructor raise its
    "Wrong specified activation function parameters" exception, whatever
    the other arguments are. *)
Theorem init_rejects_act_params_without_keys
    nn act (d : gmap string (pyval T)) c opt orth rf params :
  d !! "act_param" = None ->
  d !! "knots" = None ->
  ELMLayer_init nn act (Some d) c opt orth rf params
  = Raise (Exception
             "TypeError: Wrong specified activation function parameters").
Proof.
  intros Hp Hk. unfold ELMLayer_init, activation_ctor.
  rewrite Hp, Hk. by destruct (d !! "act_param2").
Qed.

(** X2. A layer that the constructor returns holds exactly the weights
    passed as keyword arguments ([None] for those not passed),
    the hyperparameters as given, and no cached [input], [output],
    [feature_map] or [error_history]. *)
Theorem init_stores_arguments
    nn act ap c opt orth rf (params : gmap string (pyval T)) l :
  ELMLayer_init nn act ap c opt orth rf params = Ok l ->
  params !! "alpha" = PTensor <$> alpha l /\
  params !! "bias" = PVector <$> bias l /\
  params !! "beta" = PTensor <$> beta l /\
  params !! "denoising" = denoising l /\
  params !! "denoising_param" = denoising_param l /\
  number_neurons l = nn /\ activation_name l = act /\
  act_params l = ap /\ C l = c /\ beta_optimizer l = opt /\
  is_orthogonalized l = orth /\
  input l = None /\ output l = None /\
  feature_map l = None /\ error_history l = None.
Proof.
  unfold ELMLayer_init, result_bind, param_tensor, param_vector.
  rewrite !lookup_delete_ne by done.
  intros Hinit. branches; done.
Qed.

(** X3. The layer is constrained only when the keyword argument
    [constrained] is the boolean [True]: any other value, such as the
    integer 1 or a string, leaves it unconstrained. *)
Theorem init_constrained_only_for_True
    nn act ap c opt orth rf (params : gmap string (pyval T)) l :
  ELMLayer_init nn act ap c opt orth rf params = Ok l ->
  (constrained l = true <-> params !! "constrained" = Some (PBool true)).
Proof.
  unfold ELMLayer_init, result_bind.
  rewrite !lookup_delete_ne by done.
  intros Hinit. branches; split; done.
Qed.

(** *** [build] *)

(** [build] returns whenever the last dimension exists, the neuron count
    is a non-negative integer and orthogonalization, if asked for, does not
    raise. *)
Lemma build_returns l input_shape d z g :
  last input_shape = Some d ->
  number_neurons l = PInt z -> (0 <= z)%Z ->
  (is_orthogonalized l = true -> forall a, exists a', gram_schmidt a = Ok a') ->
  exists g' l', build input_shape g l = (Ok g', l').
Proof.
  intros Hd Hz Hpos Hgs. unfold build. run. rewrite Hd, Hz.
  rewrite decide_True by done.
  destruct (tf_random_uniform_initializer2 _ _ _ _ g) as [a g1].
  destruct (tf_random_uniform_initializer1 _ _ _ g1) as [b g2]. attrs.
  destruct (is_orthogonalized l) eqn:Ho; attrs; [|eauto].
  destruct (Hgs eq_refl a) as [a' ->]. attrs. eauto.
Qed.

(** [build] raises before drawing anything when it cannot read its
    sizes. *)
Lemma build_bad_sizes l input_shape g :
  last input_shape = None \/
  (forall z, number_neurons l = PInt z -> (z < 0)%Z) ->
  raises (fst (build input_shape g l)) /\ snd (build input_shape g l) = l.
Proof.
  intros Hbad. unfold build. run.
  destruct (last input_shape) as [d|]; [|done].
  destruct Hbad as [|Hneg]; [done|].
  destruct (number_neurons l) as [z| | | | | |]; try done.
  specialize (Hneg z eq_refl). rewrite decide_False by lia. done.
Qed.

(** X4. On a layer whose [number_neurons] is a non-negative integer [n],
    [build] with an input shape ending in [d] returns (orthogonalization,
    if enabled, not raising) and leaves a [d] by [n] matrix in [alpha] and
    a vector of length [n] in [bias], replacing whatever weights were
    there. *)
Theorem build_succeeds `{!TensorFlowLaws T} `{!ResourcesLaws T}
    l input_shape d z g :
  last input_shape = Some d ->
  number_neurons l = PInt z -> (0 <= z)%Z ->
  (is_orthogonalized l = true -> forall a, exists a', gram_schmidt a = Ok a') ->
  exists g' l' a b,
    build input_shape g l = (Ok g', l') /\
    alpha l' = Some a /\ shape a = (d, Z.to_nat z) /\
    bias l' = Some b /\ length b = Z.to_nat z.
Proof.
  intros Hd Hz Hpos Hgs.
  destruct (build_returns l input_shape d z g Hd Hz Hpos Hgs)
    as (g' & l' & Hb).
  destruct (build_Ok_inv _ _ _ _ _ Hb)
    as (d' & z' & a & b & Hd' & Hz' & _ & Ha & Hsa & Hbi & Hlb & _).
  rewrite Hd in Hd'. rewrite Hz in Hz'. simplify_eq.
  exists g', l', a, b. done.
Qed.

(** What [build] leaves alone. *)
Lemma build_frame l input_shape g :
  let l' := snd (build input_shape g l) in
  beta l' = beta l /\ input l' = input l /\ output l' = output l /\
  feature_map l' = feature_map l /\ error_history l' = error_history l /\
  number_neurons l' = number_neurons l /\ C l' = C l /\
  activation l' = activation l /\ activation_name l' = activation_name l /\
  act_params l' = act_params l /\ beta_optimizer l' = beta_optimizer l /\
  is_orthogonalized l' = is_orthogonalized l /\
  receptive_field_generator l' = receptive_field_generator l /\
  denoising l' = denoising l /\ denoising_param l' = denoising_param l /\
  constrained l' = constrained l /\ name l' = name l.
Proof.
  cbv zeta. unfold build. run.
  destruct (last input_shape); attrs; [|by repeat split].
  destruct (number_neurons l) eqn:Hnn; attrs; try by repeat split.
  case_decide; attrs; [|by repeat split].
  destruct (tf_random_uniform_initializer2 _ _ _ _ g) as [a g1].
  destruct (tf_random_uniform_initializer1 _ _ _ g1) as [b g2]. attrs.
  destruct (is_orthogonalized l) eqn:Ho; attrs; [|by repeat split].
  destruct (gram_schmidt a); attrs; by repeat split.
Qed.

(** X5. [build] assigns [alpha] and [bias] and nothing else, whether it
    returns or raises: the output weights, the cached [input], [output],
    [feature_map] and [error_history], and every hyperparameter are left as
    they were. *)
Theorem build_assigns_only_alpha_and_bias l input_shape g :
  let l' := snd (build input_shape g l) in
  beta l' = beta l /\ input l' = input l /\ output l' = output l /\
  feature_map l' = feature_map l /\ error_history l' = error_history l /\
  number_neurons l' = number_neurons l /\ C l' = C l /\
  activation l' = activation l /\ activation_name l' = activation_name l /\
  act_params l' = act_params l /\ beta_optimizer l' = beta_optimizer l /\
  is_orthogonalized l' = is_orthogonalized l /\
  receptive_field_generator l' = receptive_field_generator l /\
  denoising l' = denoising l /\ denoising_param l' = denoising_param l /\
  constrained l' = constrained l /\ name l' = name l.
Proof. apply build_frame. Qed.


(** X7. A layer returned by [load] cannot be built: its [number_neurons]
    is the dictionary, so [build] raises for every input shape and leaves
    the layer without weights. *)
Theorem loaded_layer_cannot_be_built (d : gmap string (pyval T)) l
    input_shape g :
  load d = Ok l ->
  raises (fst (build input_shape g l)) /\
  snd (build input_shape g l) = l /\
  alpha l = None /\ bias l = None.
Proof.
  intros Hload.
  destruct (load_ignores_attributes _ _ Hload) as (Ha & Hb & _ & Hnn).
  destruct (build_bad_sizes l input_shape g) as [Hr Hl].
  { right. intros z Hz. by rewrite Hnn in Hz. }
  done.
Qed.

(** X8. When orthogonalization is enabled and [gram_schmidt] raises,
    [build] raises the same exception and the layer keeps the random,
    not orthogonalized [alpha] and the not normalized [bias] that were
    drawn before the call. *)
Theorem build_keeps_draws_when_gram_schmidt_raises
    l input_shape d z g e :
  last input_shape = Some d ->
  number_neurons l = PInt z -> (0 <= z)%Z ->
  is_orthogonalized l = true ->
  let ra := tf_random_uniform_initializer2 (s_opp s_one) s_one d
              (Z.to_nat z) g in
  let rb := tf_random_uniform_initializer1 s_zero s_one (Z.to_nat z)
              (snd ra) in
  gram_schmidt (fst ra) = Raise e ->
  fst (build input_shape g l) = Raise e /\
  alpha (snd (build input_shape g l)) = Some (fst ra) /\
  bias (snd (build input_shape g l)) = Some (fst rb).
Proof.
  intros Hd Hz Hpos Ho. cbv zeta. intros Hgs. unfold build. run.
  rewrite Hd, Hz. rewrite decide_True by done.
  destruct (tf_random_uniform_initializer2 _ _ _ _ g) as [a g1]. attrs.
  destruct (tf_random_uniform_initializer1 _ _ _ g1) as [b g2]. attrs.
  rewrite Ho. attrs. rewrite Hgs. attrs. done.
Qed.

(** *** [fit] *)

Lemma regularize_returns c (h : tensor T) :
  exists h', regularize c h = Ok h' /\ shape h' = shape h.
Proof.
  destruct c as [c|]; [|by exists h].
  destruct (regularize_Some h c) as (h' & Hh & Hs & _). by exists h'.
Qed.

Lemma tf_matmul_returns (a b : tensor T) :
  snd (shape a) = fst (shape b) ->
  exists r, tf_matmul a (Some b) false = Ok r /\
            shape r = (fst (shape a), snd (shape b)).
Proof.
  intros Hs. unfold tf_matmul. rewrite decide_True by done. eauto.
Qed.

Lemma tf_add_returns (h : tensor T) (b : vector T) :
  length b = snd (shape h) ->
  exists r, tf_add h (Some b) = Ok r /\ shape r = shape h.
Proof.
  intros Hl. unfold tf_add. destruct (shape h) as [n m] eqn:Hsh.
  simpl in Hl. rewrite decide_True by (by left).
  eexists. split; [done|]. simpl. by rewrite Hl, broadcast_dim_same.
Qed.

(** [fit] returns on data of the right shapes when its collaborators do. *)
Lemma fit_returns `{!TensorFlowLaws T} l x y a b :
  alpha l = Some a -> bias l = Some b ->
  snd (shape x) = fst (shape a) ->
  length b = snd (shape a) ->
  fst (shape y) = fst (shape x) ->
  (constrained l = true ->
     exists w, generate_contrainted_weights x y (number_neurons l) = Ok w) ->
  (forall gen, receptive_field_generator l = Some gen ->
     exists a', generate_receptive_fields gen a = Ok a' /\
                shape a' = shape a) ->
  (forall o b0 h, beta_optimizer l = Some o ->
     exists r, optimize o b0 h y = Ok r /\ shape (fst r) = shape b0) ->
  exists l', fit x y l = (Ok tt, l').
Proof.
  intros Ha Hb Hx Hlb Hy Hgcw Hrf Hopt.
  assert (exists a2, shape a2 = shape a /\
            match receptive_field_generator l with
            | Some gen => generate_receptive_fields gen a = Ok a2
            | None => a2 = a
            end) as (a2 & Hsa2 & Ha2).
  { destruct (receptive_field_generator l) as [gen|].
    - destruct (Hrf gen eq_refl) as (a' & Hg & Hs). by exists a'.
    - by exists a. }
  destruct (tf_matmul_returns x a2) as (xa & Hxa & Hsxa);
    [by rewrite Hsa2|].
  destruct (tf_add_returns xa b) as (z & Hz & Hsz);
    [by rewrite Hsxa, Hsa2|].
  destruct (regularize_returns (C l) (tmap (activation l) z))
    as (h & Hh & Hsh).
  rewrite shape_tmap, Hsz, Hsxa in Hsh.
  destruct (tf_matmul_returns (tf_linalg_pinv h) y) as (b0 & Hb0 & Hsb0);
    [by rewrite pinv_shape, Hsh|].
  rewrite pinv_shape, Hsh in Hsb0. cbn [fst snd] in Hsb0.
  assert (exists r : option (tensor T * list T),
            match beta_optimizer l with
            | Some o => exists r', r = Some r' /\ optimize o b0 h y = Ok r' /\
                                   shape (fst r') = shape b0
            | None => r = None
            end) as (r & Hr).
  { destruct (beta_optimizer l) as [o|].
    - destruct (Hopt o b0 h eq_refl) as (r' & Hr' & Hs). exists (Some r').
      by exists r'.
    - by exists None. }
  unfold fit. run.
  destruct (constrained l); attrs;
    [destruct (Hgcw eq_refl) as [w ->]; attrs|].
  all: rewrite Ha; destruct (receptive_field_generator l) as [gen|]; attrs;
    [rewrite Ha2; attrs | subst a2; rewrite Ha].
  all: rewrite Hxa; attrs; rewrite Hb, Hz; attrs; rewrite Hh; attrs.
  all: rewrite Hb0; attrs.
  all: destruct (beta_optimizer l) as [o|]; attrs;
    [destruct Hr as (r' & _ & -> & Hsr); attrs;
     destruct (tf_matmul_returns h (fst r')) as (out & -> & _);
       [by rewrite Hsh, Hsr, Hsb0|]
    |destruct (tf_matmul_returns h b0) as (out & -> & _);
       [by rewrite Hsh, Hsb0|]];
    eauto.
Qed.

(** The shapes a successful [fit] leaves behind. *)
Lemma fit_Ok_shapes `{!TensorFlowLaws T} l x y l' :
  fit x y l = (Ok tt, l') ->
  exists a b h be out,
    alpha l' = Some a /\ bias l' = Some b /\ feature_map l' = Some h /\
    beta l' = Some be /\ output l' = Some out /\
    snd (shape x) = fst (shape a) /\
    fst (shape y) = fst (shape x) /\
    shape h = (fst (shape x), broadcast_dim (snd (shape a)) (length b)) /\
    fst (shape be) = snd (shape h) /\
    shape out = (fst (shape x), snd (shape be)) /\
    (beta_optimizer l = None -> snd (shape be) = snd (shape y)).
Proof.
  intros Hfit.
  destruct (fit_Ok_inv _ _ _ _ Hfit)
    as (xa & z & h & beta0 & out & Hxa & Hz & Hreg & Hb0 & Hopt & Hfm
        & Hout & Ho & _).
  destruct (alpha l') as [a|]; [|done].
  destruct (bias l') as [b|]; [|done].
  destruct (beta l') as [be|] eqn:Hbe; [|done].
  apply tf_matmul_shape in Hxa as [Hsxa Hx].
  apply tf_add_shape in Hz. apply regularize_shape in Hreg.
  rewrite shape_tmap, Hz, Hsxa in Hreg. cbn [fst snd] in Hreg.
  apply tf_matmul_shape in Hb0 as [Hsb0 Hy].
  rewrite pinv_shape, Hreg in Hsb0, Hy. cbn [fst snd] in Hsb0, Hy.
  apply tf_matmul_shape in Hout as [Hsout Hhb].
  rewrite Hreg in Hsout, Hhb. cbn [fst snd] in Hsout, Hhb.
  exists a, b, h, be, out. rewrite Hreg. cbn [fst snd].
  repeat split; try done.
  intros Hnone. rewrite Hnone in Hopt. destruct Hopt as [Hopt _].
  injection Hopt as ->. by rewrite Hsb0.
Qed.

(** X9. On a layer with an input-weight matrix of [d] rows and [n] columns
    and a bias of length [n], [fit(x, y)] returns for every [x] with [d]
    columns and every [y] with as many rows as [x] (the weight generator,
    the receptive field generator and the optimizer, where configured,
    returning, the last two with the shape they were given); the cached
    [output] then has the rows of [x] and the columns of [y]. *)
Theorem fit_succeeds_on_matching_shapes `{!TensorFlowLaws T} l x y a b :
  alpha l = Some a -> bias l = Some b ->
  snd (shape x) = fst (shape a) ->
  length b = snd (shape a) ->
  fst (shape y) = fst (shape x) ->
  (constrained l = true ->
     exists w, generate_contrainted_weights x y (number_neurons l) = Ok w) ->
  (forall gen, receptive_field_generator l = Some gen ->
     exists a', generate_receptive_fields gen a = Ok a' /\
                shape a' = shape a) ->
  (forall o b0 h, beta_optimizer l = Some o ->
     exists r, optimize o b0 h y = Ok r /\ shape (fst r) = shape b0) ->
  exists l' out,
    fit x y l = (Ok tt, l') /\ output l' = Some out /\
    fst (shape out) = fst (shape x) /\
    (beta_optimizer l = None -> snd (shape out) = snd (shape y)).
Proof.
  intros Ha Hb Hx Hlb Hy Hgcw Hrf Hopt.
  destruct (fit_returns l x y a b Ha Hb Hx Hlb Hy Hgcw Hrf Hopt)
    as [l' Hfit].
  destruct (fit_Ok_shapes _ _ _ _ Hfit)
    as (a' & b' & h & be & out & _ & _ & _ & _ & Hout & _ & _ & _ & _
        & Hsout & Hk).
  exists l', out. rewrite Hsout. cbn [fst snd]. done.
Qed.

(** X10. Whether it returns or raises, [fit(x, y)] has stored [x] in
    [input], and it never assigns [bias] or any hyperparameter. *)
Theorem fit_stores_input_keeps_hyperparameters l x y :
  let l' := snd (fit x y l) in
  input l' = Some x /\ bias l' = bias l /\
  number_neurons l' = number_neurons l /\ C l' = C l /\
  activation l' = activation l /\ activation_name l' = activation_name l /\
  act_params l' = act_params l /\ beta_optimizer l' = beta_optimizer l /\
  is_orthogonalized l' = is_orthogonalized l /\
  receptive_field_generator l' = receptive_field_generator l /\
  denoising l' = denoising l /\ denoising_param l' = denoising_param l /\
  constrained l' = constrained l /\ name l' = name l.
Proof.
  cbv zeta. unfold fit. run.
  destruct (constrained l) eqn:Hc; attrs;
    [destruct (generate_contrainted_weights x y (number_neurons l)); attrs;
       [|by repeat split]|].
  all: destruct (receptive_field_generator l) as [gen|] eqn:Hg; attrs;
    [destruct (alpha l) as [aw|]; attrs;
       [destruct (generate_receptive_fields gen aw); attrs;
          [|by repeat split]|]|].
  all: repeat (match goal with
               | |- context [match ?r with Ok _ => _ | Raise _ => _ end] =>
                   destruct r; attrs; [|by repeat split]
               end).
  all: destruct (beta_optimizer l) as [o|] eqn:Ho; attrs.
  all: repeat (match goal with
               | |- context [match ?r with Ok _ => _ | Raise _ => _ end] =>
                   destruct r; attrs; [|by repeat split]
               end).
  all: by repeat split.
Qed.

(** Two layers with the same attributes are the same layer. *)
Lemma layer_ext l1 l2 :
  error_history l1 = error_history l2 -> feature_map l1 = feature_map l2 ->
  name l1 = name l2 -> beta l1 = beta l2 -> bias l1 = bias l2 ->
  alpha l1 = alpha l2 -> input l1 = input l2 -> output l1 = output l2 ->
  act_params l1 = act_params l2 -> beta_optimizer l1 = beta_optimizer l2 ->
  is_orthogonalized l1 = is_orthogonalized l2 ->
  activation_name l1 = activation_name l2 -> activation l1 = activation l2 ->
  number_neurons l1 = number_neurons l2 -> C l1 = C l2 ->
  receptive_field_generator l1 = receptive_field_generator l2 ->
  denoising l1 = denoising l2 -> denoising_param l1 = denoising_param l2 ->
  constrained l1 = constrained l2 ->
  l1 = l2.
Proof. destruct l1, l2. simpl. intros. by subst. Qed.

(** X11. When the optimizer raises, the earlier steps of [fit] having
    returned (the weight generator of a constrained layer, the receptive
    field generator if there is one, [x . alpha + bias] and
    [pinv(H) . y]), [fit] raises the same exception after having stored
    the closed-form solution: [beta] is [pinv(H) . y] and [input] is [x],
    while [feature_map], [output] and [error_history] still hold what they
    held before the call. *)
Theorem fit_keeps_closed_form_when_optimizer_raises
    l x y a2 xa z h beta0 o e :
  (constrained l = true ->
     exists w, generate_contrainted_weights x y (number_neurons l) = Ok w) ->
  match receptive_field_generator l, alpha l with
  | Some gen, Some a =>
      exists a', generate_receptive_fields gen a = Ok a' /\ a2 = Some a'
  | _, _ => a2 = alpha l
  end ->
  tf_matmul x a2 false = Ok xa ->
  tf_add xa (bias l) = Ok z ->
  regularize (C l) (tmap (activation l) z) = Ok h ->
  tf_matmul (tf_linalg_pinv h) (Some y) false = Ok beta0 ->
  beta_optimizer l = Some o ->
  optimize o beta0 h y = Raise e ->
  fst (fit x y l) = Raise e /\
  beta (snd (fit x y l)) = Some beta0 /\
  input (snd (fit x y l)) = Some x /\
  alpha (snd (fit x y l)) = a2 /\
  feature_map (snd (fit x y l)) = feature_map l /\
  output (snd (fit x y l)) = output l /\
  error_history (snd (fit x y l)) = error_history l.
Proof.
  intros Hgcw Hrf Hxa Hz Hh Hb0 Ho Hopt. unfold fit. run.
  destruct (constrained l); attrs;
    [destruct (Hgcw eq_refl) as [w ->]; attrs|].
  all: destruct (receptive_field_generator l) as [gen|]; attrs;
    [destruct (alpha l) as [a|] eqn:Hal; attrs;
       [destruct Hrf as (a' & Hgen & ->); rewrite Hgen; attrs
       |subst a2; unfold tf_matmul in Hxa; discriminate Hxa]
    |subst a2].
  all: rewrite Hxa; attrs; rewrite Hz; attrs; rewrite Hh; attrs;
    rewrite Hb0; attrs; rewrite Ho; attrs; rewrite Hopt; attrs;
    by repeat split.
Qed.

(** X12. [fit] on an [x] whose number of columns is not the number of rows
    of [alpha] raises a shape error; by then only [input] has been
    assigned, so the layer keeps its previous [beta], [feature_map] and
    [output]. *)
Theorem fit_rejects_wrong_feature_count l x y a :
  alpha l = Some a ->
  snd (shape x) <> fst (shape a) ->
  constrained l = false ->
  receptive_field_generator l = None ->
  fit x y l = (Raise InvalidArgumentError, set_input (Some x) l).
Proof.
  intros Ha Hx Hc Hrf. unfold fit. run.
  rewrite Hc, Hrf. attrs. rewrite Ha. unfold tf_matmul.
  rewrite decide_False by done. done.
Qed.

(** X13. [fit] on a [y] whose number of rows is not that of [x] raises a
    shape error at the product [pinv(H) . y], the earlier steps having
    returned (the weight generator of a constrained layer, the receptive
    field generator if there is one, and [x . alpha + bias]); [input] is
    then [x], and [beta], [feature_map], [output] and [error_history] hold
    what they held before the call: no output weights are stored. *)
Theorem fit_rejects_wrong_target_count `{!TensorFlowLaws T} l x y a2 xa z :
  (constrained l = true ->
     exists w, generate_contrainted_weights x y (number_neurons l) = Ok w) ->
  match receptive_field_generator l, alpha l with
  | Some gen, Some a =>
      exists a', generate_receptive_fields gen a = Ok a' /\ a2 = Some a'
  | _, _ => a2 = alpha l
  end ->
  tf_matmul x a2 false = Ok xa ->
  tf_add xa (bias l) = Ok z ->
  fst (shape y) <> fst (shape x) ->
  fst (fit x y l) = Raise InvalidArgumentError /\
  input (snd (fit x y l)) = Some x /\
  beta (snd (fit x y l)) = beta l /\
  feature_map (snd (fit x y l)) = feature_map l /\
  output (snd (fit x y l)) = output l /\
  error_history (snd (fit x y l)) = error_history l.
Proof.
  intros Hgcw Hrf Hxa Hz Hy.
  destruct (regularize_returns (C l) (tmap (activation l) z))
    as (h & Hh & Hsh).
  assert (Hb0 : tf_matmul (tf_linalg_pinv h) (Some y) false
                = Raise InvalidArgumentError).
  { destruct a2 as [a|]; [|done]. destruct (bias l) as [b|]; [|done].
    apply tf_matmul_shape in Hxa as [Hsxa _]. apply tf_add_shape in Hz.
    rewrite shape_tmap, Hz, Hsxa in Hsh. cbn [fst snd] in Hsh.
    unfold tf_matmul. rewrite pinv_shape, Hsh. cbn [fst snd].
    by rewrite decide_False by done. }
  unfold fit. run.
  destruct (constrained l); attrs;
    [destruct (Hgcw eq_refl) as [w ->]; attrs|].
  all: destruct (receptive_field_generator l) as [gen|]; attrs;
    [destruct (alpha l) as [a|] eqn:Hal; attrs;
       [destruct Hrf as (a' & Hgen & ->); rewrite Hgen; attrs
       |subst a2; unfold tf_matmul in Hxa; discriminate Hxa]
    |subst a2].
  all: rewrite Hxa; attrs; rewrite Hz; attrs; rewrite Hh; attrs;
    rewrite Hb0; attrs; by repeat split.
Qed.

(** X14. After a successful [fit(x, y)]: [x] has as many columns as
    [alpha] has rows and [y] as many rows as [x]; [feature_map] has one row
    per sample and the width that broadcasting gives to [x . alpha + bias]
    (the columns of [alpha], or the length of [bias] when [alpha] has a
    single column); [beta] has one row per column of the feature map;
    [output] has the rows of [x] and the columns of [beta], which without
    an optimizer are those of [y]. *)
Theorem fit_shapes `{!TensorFlowLaws T} l x y l' :
  fit x y l = (Ok tt, l') ->
  exists a b h be out,
    alpha l' = Some a /\ bias l' = Some b /\ feature_map l' = Some h /\
    beta l' = Some be /\ output l' = Some out /\
    snd (shape x) = fst (shape a) /\
    fst (shape y) = fst (shape x) /\
    shape h = (fst (shape x), broadcast_dim (snd (shape a)) (length b)) /\
    fst (shape be) = snd (shape h) /\
    shape out = (fst (shape x), snd (shape be)) /\
    (beta_optimizer l = None -> snd (shape be) = snd (shape y)).
Proof. apply fit_Ok_shapes. Qed.

(** X15. Fitting again on the same data changes nothing: without a
    receptive field generator, if [fit(x, y)] returned, a second
    [fit(x, y)] returns and leaves the layer exactly as the first one
    did. *)
Theorem fit_twice_is_fit_once l x y l' :
  receptive_field_generator l = None ->
  fit x y l = (Ok tt, l') ->
  fit x y l' = (Ok tt, l').
Proof.
  intros Hrf Hfit. unfold fit in Hfit. run_in Hfit.
  rewrite Hrf in Hfit. attrs. branches.
  all: unfold fit; run.
  all: repeat (match goal with
               | Heq : ?t = _ |- context [?t] => rewrite Heq; attrs
               end).
  all: f_equal; apply layer_ext; attrs; reflexivity.
Qed.

(** *** [predict] and [calc_output] *)

Lemma predict_returns l x a b be :
  alpha l = Some a -> bias l = Some b -> beta l = Some be ->
  length b = snd (shape a) -> fst (shape be) = snd (shape a) ->
  snd (shape x) = fst (shape a) ->
  exists p, predict x l = (Ok p, l) /\
            shape p = (fst (shape x), snd (shape be)).
Proof.
  intros Ha Hb Hbe Hlb Hsbe Hx.
  destruct (tf_matmul_returns x a Hx) as (xa & Hxa & Hsxa).
  destruct (tf_add_returns xa b) as (z & Hz & Hsz); [by rewrite Hsxa|].
  destruct (tf_matmul_returns (tmap (activation l) z) be)
    as (p & Hp & Hsp); [by rewrite shape_tmap, Hsz, Hsxa|].
  rewrite shape_tmap, Hsz, Hsxa in Hsp.
  exists p. split; [|done].
  unfold predict. run. rewrite Ha, Hxa. attrs. rewrite Hb, Hz. attrs.
  rewrite Hbe, Hp. done.
Qed.

(** X16. A layer whose weights fit together ([alpha] of [d] rows and [n]
    columns, [bias] of length [n], [beta] of [n] rows) predicts on exactly
    the inputs with [d] columns: for those [predict] returns a matrix with
    the rows of [x] and the columns of [beta]; for any other [x] it raises
    a shape error. The layer is unchanged either way. *)
Theorem predict_needs_the_feature_count l x a b be :
  alpha l = Some a -> bias l = Some b -> beta l = Some be ->
  length b = snd (shape a) -> fst (shape be) = snd (shape a) ->
  (snd (shape x) = fst (shape a) ->
     exists p, predict x l = (Ok p, l) /\
               shape p = (fst (shape x), snd (shape be))) /\
  (snd (shape x) <> fst (shape a) ->
     predict x l = (Raise InvalidArgumentError, l)).
Proof.
  intros Ha Hb Hbe Hlb Hsbe. split.
  - by apply (predict_returns l x a b be).
  - intros Hx. unfold predict. run. rewrite Ha. unfold tf_matmul.
    rewrite decide_False by done. done.
Qed.

(** X17. From construction to prediction: on a layer with [n] neurons and
    the default options (no orthogonalization, constrained weights,
    receptive fields or optimizer), [build] on an input shape ending in
    [d], then [fit(x, y)] with [x] of [d] columns and [y] of as many rows,
    then [predict(x')] with [x'] of [d] columns all return, and the
    prediction has the rows of [x'] and the columns of [y]. *)
Theorem build_fit_predict_compose `{!TensorFlowLaws T} `{!ResourcesLaws T}
    l input_shape d n g x y x' :
  number_neurons l = PInt (Z.of_nat n) ->
  is_orthogonalized l = false ->
  constrained l = false ->
  receptive_field_generator l = None ->
  beta_optimizer l = None ->
  last input_shape = Some d ->
  snd (shape x) = d ->
  fst (shape y) = fst (shape x) ->
  snd (shape x') = d ->
  exists g' l1 l2 p,
    build input_shape g l = (Ok g', l1) /\
    fit x y l1 = (Ok tt, l2) /\
    predict x' l2 = (Ok p, l2) /\
    shape p = (fst (shape x'), snd (shape y)).
Proof.
  intros Hnn Ho Hc Hrf Hopt Hd Hx Hy Hx'.
  destruct (build_returns l input_shape d (Z.of_nat n) g Hd Hnn)
    as (g' & l1 & Hbuild); [lia|by rewrite Ho|].
  destruct (build_Ok_inv _ _ _ _ _ Hbuild)
    as (d' & z & a & b & Hd' & Hz & _ & Ha1 & Hsa & Hb1 & Hlb & _
        & Hopt1 & Hrf1).
  rewrite Hd in Hd'. rewrite Hnn in Hz. simplify_eq.
  rewrite Nat2Z.id in Hsa, Hlb.
  pose proof (build_frame l input_shape g) as Hframe. cbv zeta in Hframe.
  rewrite Hbuild in Hframe. cbn [snd] in Hframe.
  destruct Hframe as (_&_&_&_&_&_&_&_&_&_&_&_&_&_&_& Hc1 &_).
  rewrite Hopt in Hopt1. rewrite Hrf in Hrf1. rewrite Hc in Hc1.
  destruct (fit_returns l1 x y a b Ha1 Hb1) as [l2 Hfit];
    try (by rewrite ?Hsa, ?Hlb); try (by rewrite ?Hc1, ?Hrf1, ?Hopt1).
  destruct (fit_Ok_shapes _ _ _ _ Hfit)
    as (a2 & b2 & h & be & out & Ha2 & Hb2 & _ & Hbe & _ & _ & _ & Hsh
        & Hsbe & _ & Hk).
  pose proof (fit_alpha_without_rf l1 x y Hrf1) as Ha2'.
  rewrite Hfit in Ha2'. cbn [snd] in Ha2'.
  rewrite Ha2, Ha1 in Ha2'. injection Ha2' as ->.
  destruct (fit_Ok_inv _ _ _ _ Hfit)
    as (_&_&_&_&_&_&_&_&_&_&_&_&_&_& Hb2' & _).
  rewrite Hb2, Hb1 in Hb2'. injection Hb2' as ->.
  rewrite Hsh, Hsa, Hlb, broadcast_dim_same in Hsbe. cbn [fst snd] in Hsbe.
  destruct (predict_returns l2 x' a b be Ha2 Hb2 Hbe) as (p & Hp & Hsp);
    try (by rewrite ?Hsa, ?Hlb).
  exists g', l1, l2, p. rewrite Hsp, (Hk Hopt1). done.
Qed.

(** X18. [calc_output] on a layer without output weights raises and leaves
    [output] alone. With output weights [beta] it accepts exactly the
    inputs that have as many columns as [beta] (the number of outputs, not
    of features): it then returns, and stores, a matrix with the rows of
    [x] and one column per row of [beta]; otherwise it raises a shape
    error and leaves the layer as it was. *)
Theorem calc_output_needs_the_output_count l x :
  (beta l = None -> calc_output x l = (Raise ValueError, l)) /\
  (forall be, beta l = Some be ->
     (snd (shape x) = snd (shape be) ->
        exists out, calc_output x l = (Ok out, set_output (Some out) l) /\
                    shape out = (fst (shape x), fst (shape be))) /\
     (snd (shape x) <> snd (shape be) ->
        calc_output x l = (Raise InvalidArgumentError, l))).
Proof.
  split; [|intros be Hbe; split].
  - intros Hbe. unfold calc_output. run. by rewrite Hbe.
  - intros Hx. unfold calc_output. run. rewrite Hbe.
    unfold tf_matmul, transpose. cbn [shape tabulate fst snd].
    rewrite decide_True by done. attrs.
    eexists. split; [reflexivity|]. by rewrite shape_tmap.
  - intros Hx. unfold calc_output. run. rewrite Hbe.
    unfold tf_matmul, transpose. cbn [shape tabulate fst snd].
    rewrite decide_False by done. done.
Qed.

(** *** [to_dict] *)

(** X19. Without a receptive field generator, the dictionary of a layer
    always has its class name, neuron count, activation name and
    orthogonalization flag, has [C], [act_params], [denoising] and
    [denoising_param] when they are not [None], and has no key beyond the
    eleven documented ones: the cached [input], [output], [feature_map] and
    [error_history], the [constrained] flag and the optimizer are never
    serialized. *)
Theorem to_dict_keys l :
  receptive_field_generator l = None ->
  to_dict l !! "name" = Some (PStr "ELMLayer") /\
  to_dict l !! "number_neurons" = Some (number_neurons l) /\
  to_dict l !! "activation" = Some (PStr (activation_name l)) /\
  to_dict l !! "is_orthogonalized" = Some (PBool (is_orthogonalized l)) /\
  to_dict l !! "C" = PFloat <$> C l /\
  to_dict l !! "act_params" = PDict <$> act_params l /\
  to_dict l !! "denoising" = denoising l /\
  to_dict l !! "denoising_param" = denoising_param l /\
  forall k : string,
    k ∉ ["name"; "number_neurons"; "activation"; "act_params"; "C";
         "is_orthogonalized"; "beta"; "alpha"; "bias"; "denoising";
         "denoising_param"] ->
    to_dict l !! k = None.
Proof.
  intros Hrf. unfold to_dict. rewrite Hrf.
  repeat (split; [by rewrite lookup_omap|]).
  intros k Hk. rewrite lookup_omap.
  repeat (apply not_elem_of_cons in Hk as [? Hk]).
  cbn [list_to_map foldr fst snd].
  rewrite !lookup_insert_ne by done. by rewrite lookup_empty.
Qed.

(** X20. The entries of the receptive field generator's dictionary take
    precedence over the layer's own: a key it maps to a value appears in
    the layer's dictionary with that value, and a key it maps to [None] is
    absent from the layer's dictionary, even when the layer has an
    attribute of that name. *)
Theorem to_dict_generator_entries_win l gen (k : string) ov :
  receptive_field_generator l = Some gen ->
  rf_to_dict gen !! k = Some ov ->
  to_dict l !! k = ov.
Proof.
  intros Hrf Hk. unfold to_dict. rewrite Hrf, lookup_omap.
  erewrite lookup_union_Some_l by exact Hk. done.
Qed.

(** X22. [build] does not look at the weights a layer already has: with
    the same input shape and generator state it returns or raises the
    same, and (its sizes being readable) leaves the same [alpha] and
    [bias], whatever [alpha] and [bias] were before. *)
Theorem build_overwrites_previous_weights l input_shape g d z a0 b0 :
  last input_shape = Some d ->
  number_neurons l = PInt z -> (0 <= z)%Z ->
  let l0 := set_bias b0 (set_alpha a0 l) in
  fst (build input_shape g l0) = fst (build input_shape g l) /\
  alpha (snd (build input_shape g l0)) = alpha (snd (build input_shape g l)) /\
  bias (snd (build input_shape g l0)) = bias (snd (build input_shape g l)).
Proof.
  intros Hd Hz Hpos. cbv zeta. unfold build. run.
  rewrite Hd, Hz. rewrite decide_True by done.
  destruct (tf_random_uniform_initializer2 _ _ _ _ g) as [a g1]. attrs.
  destruct (tf_random_uniform_initializer1 _ _ _ g1) as [b g2]. attrs.
  destruct (is_orthogonalized l); attrs; [|done].
  destruct (gram_schmidt a); attrs; done.
Qed.

End Lifecycle.

(** ** The further properties on concrete layers *)

Section LifecycleConcrete.
Import Exact Scenario.

#[local] Existing Instance Qc_scalar_laws.
#[local] Existing Instance Qc_tensorflow_laws.
#[local] Existing Instance Qc_resources_laws.

#[local] Ltac by_evaluation := vm_compute; reflexivity.
#[local] Ltac absurd_by_evaluation Hyp :=
  exfalso; vm_compute in Hyp; discriminate Hyp.

Lemma gram_schmidtQ_returns (a : tensor Qc) :
  exists a', gram_schmidt a = Ok a'.
Proof.
  cbn [gram_schmidt Qc_resources]. unfold gram_schmidtQ.
  destruct (shape a). eauto.
Qed.

Lemma init_rejects_act_params_without_keys_witness :
  ELMLayer_init (PInt 1) "identity" (Some ∅) (Some 0%Qc) None false None ∅
  = Raise (Exception
             "TypeError: Wrong specified activation function parameters").
Proof.
  apply (init_rejects_act_params_without_keys (T := Qc)); apply lookup_empty.
Defined.

Lemma init_stores_arguments_witness :
  let l := constructed (Some 0%Qc) weights in
  weights !! "alpha" = PTensor <$> alpha l /\
  weights !! "beta" = PTensor <$> beta l /\
  input l = None /\ output l = None.
Proof.
  destruct (init_stores_arguments (T := Qc)
              (PInt 1) "identity" None (Some 0%Qc) None false None weights
              (constructed (Some 0%Qc) weights))
    as (Ha & _ & Hb & _ & _ & _ & _ & _ & _ & _ & _ & Hi & Ho & _).
  - by_evaluation.
  - cbv zeta. by repeat split.
Defined.

Lemma init_constrained_only_for_True_witness :
  constrained (constructed (Some 0%Qc) with_constrained) = true <->
  with_constrained !! "constrained" = Some (PBool true).
Proof.
  apply (init_constrained_only_for_True (T := Qc)
           (PInt 1) "identity" None (Some 0%Qc) None false None).
  by_evaluation.
Defined.

Lemma build_succeeds_witness :
  exists g' l' a b,
    build [1; 1] 42%Z (constructed (Some 0%Qc) ∅) = (Ok g', l') /\
    alpha l' = Some a /\ shape a = (1, Z.to_nat 1) /\
    bias l' = Some b /\ length b = Z.to_nat 1.
Proof.
  apply (build_succeeds (T := Qc)).
  - reflexivity.
  - by_evaluation.
  - lia.
  - intros _ a. apply gram_schmidtQ_returns.
Defined.


Lemma loaded_layer_cannot_be_built_witness :
  let l := the (load (T := Qc) ∅) in
  raises (fst (build [1; 1] 42%Z l)) /\
  snd (build [1; 1] 42%Z l) = l /\
  alpha l = None /\ bias l = None.
Proof.
  apply (loaded_layer_cannot_be_built (T := Qc) ∅). reflexivity.
Defined.

Lemma build_keeps_draws_when_gram_schmidt_raises_witness :
  let l := configured 2 None true None in
  let ra := tf_random_uniform_initializer2 (s_opp s_one) s_one 1
              (Z.to_nat 2) 42%Z in
  let rb := tf_random_uniform_initializer1 s_zero s_one (Z.to_nat 2)
              (snd ra) in
  fst (build (H1 := strict_resources) [1] 42%Z l)
  = Raise (Exception "more columns than rows") /\
  alpha (snd (build (H1 := strict_resources) [1] 42%Z l)) = Some (fst ra) /\
  bias (snd (build (H1 := strict_resources) [1] 42%Z l)) = Some (fst rb).
Proof.
  apply (build_keeps_draws_when_gram_schmidt_raises (T := Qc)
           (H1 := strict_resources)).
  - reflexivity.
  - by_evaluation.
  - lia.
  - by_evaluation.
  - by_evaluation.
Defined.

Lemma fit_succeeds_on_matching_shapes_witness :
  let l := built (Some 0%Qc) ∅ in
  exists l' out,
    fit x1 y1 l = (Ok tt, l') /\ output l' = Some out /\
    fst (shape out) = fst (shape x1) /\
    (beta_optimizer l = None -> snd (shape out) = snd (shape y1)).
Proof.
  apply (fit_succeeds_on_matching_shapes (T := Qc) (built (Some 0%Qc) ∅)
           x1 y1 (default x1 (alpha (built (Some 0%Qc) ∅)))
           (default [] (bias (built (Some 0%Qc) ∅)))).
  - by_evaluation.
  - by_evaluation.
  - by_evaluation.
  - by_evaluation.
  - by_evaluation.
  - intros Hc. absurd_by_evaluation Hc.
  - intros gen Hg. absurd_by_evaluation Hg.
  - intros o b0 h Ho. absurd_by_evaluation Ho.
Defined.

Lemma fit_keeps_closed_form_when_optimizer_raises_witness :
  let l := built_failing_patched in
  constrained l = true /\
  receptive_field_generator l = Some patches /\
  fst (fit x1 y1 l) = Raise (Exception "optimizer diverged") /\
  entries <$> beta (snd (fit x1 y1 l)) = Some [[256 # 175]] /\
  feature_map (snd (fit x1 y1 l)) = feature_map l /\
  output (snd (fit x1 y1 l)) = output l.
Proof.
  set (l := built_failing_patched).
  set (a0 := default x1 (alpha l)).
  set (xa := default x1 (returned (tf_matmul x1 (Some a0) false))).
  set (z := default x1 (returned (tf_add xa (bias l)))).
  set (h := default x1
              (returned (regularize (C l) (tmap (activation l) z)))).
  set (beta0 := default x1
                  (returned (tf_matmul (tf_linalg_pinv h) (Some y1) false))).
  assert (Hc : constrained l = true) by by_evaluation.
  assert (Hrf : receptive_field_generator l = Some patches) by reflexivity.
  assert (Ha : alpha l = Some a0) by by_evaluation.
  destruct (fit_keeps_closed_form_when_optimizer_raises (T := Qc)
              l x1 y1 (Some a0) xa z h beta0 failing
              (Exception "optimizer diverged"))
    as (Hraise & Hbeta & _ & _ & Hfm & Hout & _).
  - intros _. exists (default x1 (returned
      (generate_contrainted_weights x1 y1 (number_neurons l)))).
    by_evaluation.
  - rewrite Hrf, Ha. exists a0. split; reflexivity.
  - by_evaluation.
  - by_evaluation.
  - by_evaluation.
  - by_evaluation.
  - by_evaluation.
  - by_evaluation.
  - split; [exact Hc|]. split; [exact Hrf|]. split; [exact Hraise|].
    split; [rewrite Hbeta; by_evaluation|]. split; [exact Hfm|exact Hout].
Defined.

Lemma fit_rejects_wrong_feature_count_witness :
  fit wide y1 (built (Some 0%Qc) ∅)
  = (Raise InvalidArgumentError,
     set_input (Some wide) (built (Some 0%Qc) ∅)).
Proof.
  apply (fit_rejects_wrong_feature_count (T := Qc) _ wide y1
           (default x1 (alpha (built (Some 0%Qc) ∅)))).
  - by_evaluation.
  - vm_compute. discriminate.
  - by_evaluation.
  - by_evaluation.
Defined.

Lemma fit_rejects_wrong_target_count_witness :
  let l := built (Some 0%Qc) with_constrained in
  constrained l = true /\
  fst (fit x1 x2 l) = Raise InvalidArgumentError /\
  input (snd (fit x1 x2 l)) = Some x1 /\
  beta (snd (fit x1 x2 l)) = beta l.
Proof.
  set (l := built (Some 0%Qc) with_constrained).
  set (xa := default x1 (returned (tf_matmul x1 (alpha l) false))).
  set (z := default x1 (returned (tf_add xa (bias l)))).
  assert (Hc : constrained l = true) by by_evaluation.
  destruct (fit_rejects_wrong_target_count (T := Qc) l x1 x2 (alpha l) xa z)
    as (Hraise & Hin & Hbeta & _).
  - intros _. exists (default x1 (returned
      (generate_contrainted_weights x1 x2 (number_neurons l)))).
    by_evaluation.
  - assert (Hrf : receptive_field_generator l = None) by by_evaluation.
    by rewrite Hrf.
  - by_evaluation.
  - by_evaluation.
  - vm_compute. discriminate.
  - by repeat split.
Defined.

Lemma fit_shapes_witness :
  let l := built (Some 0%Qc) ∅ in
  let l' := fitted (Some 0%Qc) ∅ in
  exists a b h be out,
    alpha l' = Some a /\ bias l' = Some b /\ feature_map l' = Some h /\
    beta l' = Some be /\ output l' = Some out /\
    snd (shape x1) = fst (shape a) /\
    fst (shape y1) = fst (shape x1) /\
    shape h = (fst (shape x1), broadcast_dim (snd (shape a)) (length b)) /\
    fst (shape be) = snd (shape h) /\
    shape out = (fst (shape x1), snd (shape be)) /\
    (beta_optimizer l = None -> snd (shape be) = snd (shape y1)).
Proof.
  apply (fit_shapes (T := Qc) (built (Some 0%Qc) ∅) x1 y1). by_evaluation.
Defined.

Lemma fit_twice_is_fit_once_witness :
  fit x1 y1 (fitted (Some 0%Qc) ∅) = (Ok tt, fitted (Some 0%Qc) ∅).
Proof.
  apply (fit_twice_is_fit_once (T := Qc) (built (Some 0%Qc) ∅)).
  - by_evaluation.
  - by_evaluation.
Defined.

Lemma predict_needs_the_feature_count_witness :
  let l := fitted (Some 0%Qc) ∅ in
  (exists p, predict x1 l = (Ok p, l) /\ fst (shape p) = 1) /\
  predict wide l = (Raise InvalidArgumentError, l).
Proof.
  set (l := fitted (Some 0%Qc) ∅).
  destruct (predict_needs_the_feature_count (T := Qc) l x1
              (default x1 (alpha l)) (default [] (bias l))
              (default x1 (beta l)))
    as [Hyes _]; try by_evaluation.
  destruct (predict_needs_the_feature_count (T := Qc) l wide
              (default x1 (alpha l)) (default [] (bias l))
              (default x1 (beta l)))
    as [_ Hno]; try by_evaluation.
  split.
  - destruct Hyes as (p & Hp & Hs); [by_evaluation|].
    exists p. split; [exact Hp|]. by rewrite Hs.
  - apply Hno. vm_compute. discriminate.
Defined.

Lemma build_fit_predict_compose_witness :
  exists g' l1 l2 p,
    build [1; 1] 42%Z (constructed (Some 0%Qc) ∅) = (Ok g', l1) /\
    fit x1 y1 l1 = (Ok tt, l2) /\
    predict x2 l2 = (Ok p, l2) /\
    shape p = (fst (shape x2), snd (shape y1)).
Proof.
  apply (build_fit_predict_compose (T := Qc) _ _ 1 1); by_evaluation.
Defined.

Lemma calc_output_needs_the_output_count_witness :
  let l := fitted (Some 0%Qc) ∅ in
  calc_output x1 (constructed (Some 0%Qc) ∅)
  = (Raise ValueError, constructed (Some 0%Qc) ∅) /\
  (exists out, calc_output x1 l = (Ok out, set_output (Some out) l)) /\
  calc_output wide l = (Raise InvalidArgumentError, l).
Proof.
  set (l := fitted (Some 0%Qc) ∅).
  destruct (calc_output_needs_the_output_count (T := Qc)
              (constructed (Some 0%Qc) ∅) x1) as [Hnone _].
  destruct (calc_output_needs_the_output_count (T := Qc) l x1)
    as [_ Hsome].
  destruct (calc_output_needs_the_output_count (T := Qc) l wide)
    as [_ Hwide].
  assert (Hbe : beta l = Some (default x1 (beta l))) by by_evaluation.
  split; [|split].
  - apply Hnone. by_evaluation.
  - destruct (proj1 (Hsome _ Hbe)) as (out & Hout & _); [by_evaluation|].
    by exists out.
  - apply (proj2 (Hwide _ Hbe)). vm_compute. discriminate.
Defined.

Lemma to_dict_keys_witness :
  let l := fitted (Some 0%Qc) with_constrained in
  constrained l = true /\ is_Some (output l) /\
  to_dict l !! "number_neurons" = Some (PInt 1) /\
  to_dict l !! "constrained" = None /\
  to_dict l !! "output" = None /\
  to_dict l !! "error_history" = None.
Proof.
  set (l := fitted (Some 0%Qc) with_constrained).
  destruct (to_dict_keys (T := Qc) l)
    as (_ & Hnn & _ & _ & _ & _ & _ & _ & Hnone); [by_evaluation|].
  assert (Hl : number_neurons l = PInt 1) by by_evaluation.
  rewrite Hl in Hnn.
  split; [by_evaluation|]. split; [vm_compute; eauto|].
  split; [exact Hnn|].
  split; [|split]; apply Hnone; intros Hin;
    repeat (apply elem_of_cons in Hin as [Hin|Hin]; [discriminate Hin|]);
    by apply elem_of_nil in Hin.
Defined.

Lemma to_dict_generator_entries_win_witness :
  let l := configured 1 None false (Some patches) in
  to_dict l !! "alpha" = None /\
  to_dict l !! "rf_name" = Some (PStr "ReceptiveFieldGenerator").
Proof.
  split.
  - apply (to_dict_generator_entries_win (T := Qc) _ patches "alpha" None);
      reflexivity.
  - apply (to_dict_generator_entries_win (T := Qc) _ patches "rf_name"
             (Some (PStr "ReceptiveFieldGenerator"))); reflexivity.
Defined.

Lemma build_overwrites_previous_weights_witness :
  let l := constructed (Some 0%Qc) ∅ in
  let l0 := set_bias (Some [0%Qc]) (set_alpha (Some wide) l) in
  fst (build [1; 1] 42%Z l0) = fst (build [1; 1] 42%Z l) /\
  alpha (snd (build [1; 1] 42%Z l0)) = alpha (snd (build [1; 1] 42%Z l)) /\
  bias (snd (build [1; 1] 42%Z l0)) = bias (snd (build [1; 1] 42%Z l)).
Proof.
  apply (build_overwrites_previous_weights (T := Qc) _ _ _ 1 1).
  - reflexivity.
  - by_evaluation.
  - lia.
Defined.

End LifecycleConcrete.
